(** * Failing-policies webhook: trigger cycle and payload construction

    A shallow embedding of the Go package [webhooks]
    ([TriggerFailingPoliciesWebhook], [makeFailingHost], the payload
    structs) together with the parts of the Go standard library the
    package calls ([path.Join], [path.Clean], [strconv.Itoa],
    [errors.Is], the struct-tag rules of [encoding/json]). *)

From Stdlib Require Import ZArith String Ascii List Bool Lia.
From Stdlib Require Import DecimalString.
From stdpp Require Import base option list gmap.

Import ListNotations.
Set Warnings "-register-all".
Local Open Scope string_scope.
Local Open Scope Z_scope.

(** ** Go base types *)

(** [uint] on a 64-bit platform: an integer in [0, 2^64). *)
Definition uint : Type := Z.

Definition uint_modulus : Z := 2 ^ 64.


(** The conversion [int(x)] of a [uint]: same bit pattern, read as a
    signed 64-bit integer. *)
Definition int_of_uint (x : uint) : Z :=
  let x := x mod uint_modulus in
  if x <? 2 ^ 63 then x else x - uint_modulus.

(** Bytes of a Go string, and back. *)
Definition bytes (s : string) : list ascii := list_ascii_of_string s.
Definition of_bytes (l : list ascii) : string := string_of_list_ascii l.

Definition byte_eqb (a b : ascii) : bool := Ascii.eqb a b.

(** ** Package [strconv] *)
Module strconv.

(** [strconv.Itoa]: base-10 text of a signed integer, a leading [-]
    for negative numbers, no padding. *)
Definition Itoa (i : Z) : string := NilZero.string_of_int (Z.to_int i).

End strconv.

(** ** Package [path] *)
Module path.

Definition slash : ascii := "/"%char.
Definition dot : ascii := "."%char.

(** [lazybuf]: the output of [Clean], written lazily over the input
    [s]; [buf] stays [nil] (here [None]) while the output is a prefix
    of [s]. *)
Record lazybuf := mkLazybuf {
  s : list ascii;
  buf : option (list ascii);
  w : nat
}.

(** Indexing a byte slice.  [Clean] only indexes below the length of
    the slice; the zero byte stands for the positions it never reads. *)
Definition at_ (l : list ascii) (i : nat) : ascii := default zero (l !! i).

Definition index (b : lazybuf) (i : nat) : ascii :=
  match buf b with
  | Some bf => at_ bf i
  | None => at_ (s b) i
  end.

(** [make([]byte, len(b.s))] followed by [copy(b.buf, b.s[:b.w])]. *)
Definition fresh_buf (b : lazybuf) : list ascii :=
  (take (w b) (s b) ++ replicate (length (s b) - w b) zero)%list.

Definition append (b : lazybuf) (c : ascii) : lazybuf :=
  match buf b with
  | None =>
      if (w b <? length (s b))%nat && byte_eqb (at_ (s b) (w b)) c
      then mkLazybuf (s b) None (S (w b))
      else mkLazybuf (s b) (Some (<[w b := c]> (fresh_buf b))) (S (w b))
  | Some bf => mkLazybuf (s b) (Some (<[w b := c]> bf)) (S (w b))
  end.

Definition string_ (b : lazybuf) : list ascii :=
  match buf b with
  | None => take (w b) (s b)
  | Some bf => take (w b) bf
  end.

Definition set_w (b : lazybuf) (n : nat) : lazybuf :=
  mkLazybuf (s b) (buf b) n.

(** [for out.w > dotdot && out.index(out.w) != '/' { out.w-- }] *)
Fixpoint backtrack (k : nat) (dotdot : nat) (out : lazybuf) : lazybuf :=
  match k with
  | O => out
  | S k' =>
      if (dotdot <? w out)%nat && negb (byte_eqb (index out (w out)) slash)
      then backtrack k' dotdot (set_w out (w out - 1))
      else out
  end.

(** [for ; r < n && path[r] != '/'; r++ { out.append(path[r]) }] *)
Fixpoint copy_element (k : nat) (p : list ascii) (n r : nat) (out : lazybuf)
  : nat * lazybuf :=
  match k with
  | O => (r, out)
  | S k' =>
      if (r <? n)%nat && negb (byte_eqb (at_ p r) slash)
      then copy_element k' p n (S r) (append out (at_ p r))
      else (r, out)
  end.

(** The main loop of [Clean]: [r] is the next byte to read, [dotdot]
    the index in the output where [..] must stop.  Every turn reads at
    least one byte, so [n] turns are enough; [k] counts them down. *)
Fixpoint clean_loop (k : nat) (p : list ascii) (n : nat) (rooted : bool)
    (r dotdot : nat) (out : lazybuf) : lazybuf :=
  match k with
  | O => out
  | S k' =>
      if negb (r <? n)%nat then out
      else if byte_eqb (at_ p r) slash then
        (* empty path element *)
        clean_loop k' p n rooted (r + 1) dotdot out
      else if byte_eqb (at_ p r) dot
              && ((r + 1 =? n)%nat || byte_eqb (at_ p (r + 1)) slash) then
        (* . element *)
        clean_loop k' p n rooted (r + 1) dotdot out
      else if byte_eqb (at_ p r) dot && byte_eqb (at_ p (r + 1)) dot
              && ((r + 2 =? n)%nat || byte_eqb (at_ p (r + 2)) slash) then
        (* .. element: remove to last / *)
        let r := (r + 2)%nat in
        if (dotdot <? w out)%nat then
          (* can backtrack *)
          let out := set_w out (w out - 1) in
          let out := backtrack (w out) dotdot out in
          clean_loop k' p n rooted r dotdot out
        else if negb rooted then
          (* cannot backtrack, but not rooted, so append .. element *)
          let out := if (0 <? w out)%nat then append out slash else out in
          let out := append out dot in
          let out := append out dot in
          clean_loop k' p n rooted r (w out) out
        else
          clean_loop k' p n rooted r dotdot out
      else
        (* real path element: add slash if needed, copy element *)
        let out :=
          if (rooted && negb (w out =? 1)%nat)
             || (negb rooted && negb (w out =? 0)%nat)
          then append out slash else out in
        let '(r, out) := copy_element (n - r) p n r out in
        clean_loop k' p n rooted r dotdot out
  end.

Definition Clean (path : string) : string :=
  let p := bytes path in
  match p with
  | [] => "."
  | c :: _ =>
      let rooted := byte_eqb c slash in
      let n := length p in
      let out := mkLazybuf p None 0 in
      let '(out, r, dotdot) :=
        if rooted then (append out slash, 1%nat, 1%nat)
        else (out, 0%nat, 0%nat) in
      let out := clean_loop n p n rooted r dotdot out in
      (* Turn empty string into "." *)
      if (w out =? 0)%nat then "." else of_bytes (string_ out)
  end.

(** The second loop of [Join]: the non-empty prefix of the elements
    joined with slashes. *)
Fixpoint join_buf (b : list ascii) (elem : list string) : list ascii :=
  match elem with
  | [] => b
  | e :: rest =>
      if (0 <? length b)%nat || negb (String.eqb e "")
      then
        let b := if (0 <? length b)%nat then (b ++ [slash])%list else b in
        join_buf (b ++ bytes e)%list rest
      else join_buf b rest
  end.

Definition Join (elem : list string) : string :=
  let size := foldl (fun n e => (n + String.length e)%nat) 0%nat elem in
  if (size =? 0)%nat then ""
  else Clean (of_bytes (join_buf [] elem)).

End path.

(** ** Package [service]: the failing-set member type *)
Module service.

(** [service.PolicySetHost]: a member of a policy's failing set. *)
Record PolicySetHost := mkPolicySetHost {
  ID : uint;
  Hostname : string
}.

End service.

(** ** Errors

    Go errors as values: the sentinel [sql.ErrNoRows], any other opaque
    error, and an error that wraps a cause with a formatted message
    ([ctxerr.Wrapf]); the arguments of the format are kept as data. *)
Inductive fmt_arg :=
| ArgUint (n : uint)
| ArgString (s : string)
| ArgHosts (hs : list service.PolicySetHost).

Inductive error :=
| sql_ErrNoRows
| errorString (msg : string)
| wrapError (format : string) (args : list fmt_arg) (cause : error).

Module errors.

(** [errors.Unwrap]. *)
Definition Unwrap (err : error) : option error :=
  match err with
  | wrapError _ _ cause => Some cause
  | _ => None
  end.

(** [errors.Is(err, sql.ErrNoRows)]: follows the chain of causes until
    one of them is the sentinel. *)
Fixpoint Is_ErrNoRows (err : error) : bool :=
  match err with
  | sql_ErrNoRows => true
  | errorString _ => false
  | wrapError _ _ cause => Is_ErrNoRows cause
  end.

End errors.

Module ctxerr.

(** [ctxerr.Wrapf(ctx, err, format, args...)]: a new error whose cause
    is [err]. *)
Definition Wrapf (err : error) (format : string) (args : list fmt_arg) : error :=
  wrapError format args err.

End ctxerr.

(** ** Package [encoding/json]: values and the struct-tag rules *)
Module json.

Inductive value :=
| Null
| Bool (b : bool)
| Number (n : Z)
| String (s : string)
| Array (l : list value)
| Object (fields : list (string * value)).

(** A struct field as the encoder sees it: its Go name, the value of
    its [json] tag when it has one, and its encoded value. *)
Record field := mkField {
  goName : string;
  tag : option string;
  val : value
}.

(** The tag up to its first comma, and what follows. *)
Fixpoint parseTag (t : string) : string * string :=
  match t with
  | EmptyString => (EmptyString, EmptyString)
  | String.String c rest =>
      if byte_eqb c ","%char then (EmptyString, rest)
      else let '(name, opts) := parseTag rest in (String.String c name, opts)
  end.

(** Whether [opt] is one of the comma-separated options. *)
Fixpoint contains_opt (k : nat) (opts opt : string) : bool :=
  match k with
  | O => false
  | S k' =>
      match opts with
      | EmptyString => false
      | _ =>
          let '(name, rest) := parseTag opts in
          String.eqb name opt || contains_opt k' rest opt
      end
  end.

Definition isEmptyValue (v : value) : bool :=
  match v with
  | Null | Bool false | Number 0 | String EmptyString | Array [] => true
  | _ => false
  end.

Definition isExported (name : string) : bool :=
  match name with
  | String.String c _ =>
      let n := nat_of_ascii c in (65 <=? n)%nat && (n <=? 90)%nat
  | EmptyString => false
  end.

(** One member of the encoded object, or none when the field is
    skipped: unexported, tagged [-], or empty under [omitempty]. *)
Definition encodeField (f : field) : option (string * value) :=
  if negb (isExported (goName f)) then None
  else match tag f with
  | None => Some (goName f, val f)
  | Some t =>
      if String.eqb t "-" then None
      else
        let '(name, opts) := parseTag t in
        if contains_opt (String.length opts) opts "omitempty"
           && isEmptyValue (val f)
        then None
        else Some (if String.eqb name "" then goName f else name, val f)
  end.

Definition marshalStruct (fs : list field) : value :=
  Object (omap encodeField fs).

Definition keys (v : value) : list string :=
  match v with
  | Object fs => map fst fs
  | _ => []
  end.

Definition member (k : string) (v : value) : option value :=
  match v with
  | Object fs => snd <$> List.find (fun kv => String.eqb (fst kv) k) fs
  | _ => None
  end.

End json.

(** ** Package [fleet]: the configuration read by the cycle *)
Module fleet.

Record FailingPoliciesWebhookSettings := mkFailingPoliciesWebhookSettings {
  Enable : bool;
  PolicyIDs : list uint;
  DestinationURL : string
}.

Record WebhookSettingsT := mkWebhookSettings {
  FailingPoliciesWebhook : FailingPoliciesWebhookSettings
}.

Record ServerSettingsT := mkServerSettings {
  ServerURL : string
}.

Record AppConfig := mkAppConfig {
  WebhookSettings : WebhookSettingsT;
  ServerSettings : ServerSettingsT
}.

End fleet.

(** ** Package [webhooks] *)
Module webhooks.

Import fleet.

Record FailingHost := mkFailingHost {
  ID : uint;
  Hostname : string;
  URL : string
}.

Definition makeFailingHost (host : service.PolicySetHost) (fleetServerURL : string)
  : FailingHost :=
  {| ID := service.ID host;
     Hostname := service.Hostname host;
     URL := path.Join [fleetServerURL; "hosts";
                         strconv.Itoa (int_of_uint (service.ID host))] |}.

(** The zero value of [FailingHost], as [make] fills a new slice. *)
Definition zeroFailingHost : FailingHost :=
  {| ID := 0; Hostname := ""; URL := "" |}.

(** [failingHosts := make([]FailingHost, len(hosts))] followed by
    [for i := range hosts { failingHosts[i] = makeFailingHost(hosts[i], url) }]. *)
Definition fillFailingHosts (hosts : list service.PolicySetHost) (fleetServerURL : string)
  : list FailingHost :=
  foldl (fun failingHosts i =>
           match hosts !! i with
           | Some h => <[i := makeFailingHost h fleetServerURL]> failingHosts
           | None => failingHosts
           end)
        (replicate (length hosts) zeroFailingHost)
        (seq 0 (length hosts)).

Section Payload.

(** [fleet.Policy] and [time.Time] are declared elsewhere; the
    package only passes their values along. *)
Variables PolicyT TimeT : Type.

Record FailingPoliciesPayload := mkPayload {
  Timestamp : TimeT;
  Policy : option PolicyT;
  FailingHosts : list FailingHost
}.

End Payload.

Arguments mkPayload {PolicyT TimeT} _ _ _.
Arguments Timestamp {PolicyT TimeT} _.
Arguments Policy {PolicyT TimeT} _.
Arguments FailingHosts {PolicyT TimeT} _.

Section Cycle.

(** [W] is the state of the world outside the cycle: the datastore,
    the failing-policy set and the destination of the webhook. *)
Variables PolicyT TimeT W : Type.

Abbreviation Payload := (FailingPoliciesPayload PolicyT TimeT).

(** The collaborators of the cycle, each call a function of the world:
    [ds.Policy], [failingPoliciesSet.ListHosts],
    [failingPoliciesSet.RemoveHosts] and [server.PostJSONWithTimeout].
    A Go result pair [(v, err)] is a pair with [err : option error],
    [None] for [nil]. *)
Record Collaborators := mkCollaborators {
  ds_Policy : uint -> W -> (option PolicyT * option error) * W;
  set_ListHosts : uint -> W -> (list service.PolicySetHost * option error) * W;
  set_RemoveHosts : uint -> list service.PolicySetHost -> W -> option error * W;
  PostJSONWithTimeout : string -> Payload -> W -> option error * W
}.

(** What the cycle did to the world, call by call, with each result. *)
Inductive event :=
| EvPolicy (policyID : uint) (res : option PolicyT * option error)
| EvListHosts (policyID : uint) (res : list service.PolicySetHost * option error)
| EvPost (url : string) (payload : Payload) (res : option error)
| EvRemoveHosts (policyID : uint) (hosts : list service.PolicySetHost) (res : option error).

(** Computations of the cycle: the world and the trace of calls so
    far are threaded through. *)
Definition M (A : Type) : Type := W * list event -> A * (W * list event).

Definition ret {A} (a : A) : M A := fun st => (a, st).

Definition bind {A B} (m : M A) (k : A -> M B) : M B :=
  fun st => let '(a, st') := m st in k a st'.

Definition call {A} (f : W -> A * W) (ev : A -> event) : M A :=
  fun '(w, tr) => let '(a, w') := f w in (a, (w', tr ++ [ev a])%list).

Notation "x <- m ;; k" := (bind m (fun x => k))
  (at level 100, m at next level, right associativity).

Variable c : Collaborators.

(** How one turn of the loop ends: with the next identifier, or with
    the cycle returning. *)
Inductive flow :=
| Next
| Return (err : option error).

(** The body of [for _, policyID := range ...PolicyIDs]. *)
Definition iteration (appConfig : AppConfig) (now : TimeT) (policyID : uint)
  : M flow :=
  r <- call (ds_Policy c policyID) (EvPolicy policyID) ;;
  let '(policy, err) := r in
  match err with
  | Some e =>
      if errors.Is_ErrNoRows e then ret Next
      else ret (Return (Some (ctxerr.Wrapf e
             "failing to load failing policies set %d" [ArgUint policyID])))
  | None =>
      r <- call (set_ListHosts c policyID) (EvListHosts policyID) ;;
      let '(hosts, err) := r in
      match err with
      | Some e =>
          ret (Return (Some (ctxerr.Wrapf e
            "listing hosts for failing policies set %d" [ArgUint policyID])))
      | None =>
          let failingHosts :=
            fillFailingHosts hosts (ServerURL (ServerSettings appConfig)) in
          let payload : Payload :=
            {| Timestamp := now;
               Policy := policy;
               FailingHosts := failingHosts |} in
          let url :=
            DestinationURL (FailingPoliciesWebhook (WebhookSettings appConfig)) in
          err <- call (PostJSONWithTimeout c url payload) (EvPost url payload) ;;
          match err with
          | Some e =>
              ret (Return (Some (ctxerr.Wrapf e "posting to '%s'" [ArgString url])))
          | None =>
              err <- call (set_RemoveHosts c policyID hosts)
                          (EvRemoveHosts policyID hosts) ;;
              match err with
              | Some e =>
                  ret (Return (Some (ctxerr.Wrapf e
                    "removing hosts %+v from failing policies set %d"
                    [ArgHosts hosts; ArgUint policyID])))
              | None => ret Next
              end
          end
      end
  end.

Fixpoint range (appConfig : AppConfig) (now : TimeT) (policyIDs : list uint)
  : M (option error) :=
  match policyIDs with
  | [] => ret None
  | policyID :: rest =>
      f <- iteration appConfig now policyID ;;
      match f with
      | Next => range appConfig now rest
      | Return err => ret err
      end
  end.

(** [TriggerFailingPoliciesWebhook]; the debug log line has no part in
    the result or in the calls made. *)
Definition TriggerFailingPoliciesWebhook (appConfig : AppConfig) (now : TimeT)
  : M (option error) :=
  if negb (Enable (FailingPoliciesWebhook (WebhookSettings appConfig)))
  then ret None
  else range appConfig now
         (PolicyIDs (FailingPoliciesWebhook (WebhookSettings appConfig))).

End Cycle.

Arguments ds_Policy {PolicyT TimeT W} _ _ _.
Arguments set_ListHosts {PolicyT TimeT W} _ _ _.
Arguments set_RemoveHosts {PolicyT TimeT W} _ _ _ _.
Arguments PostJSONWithTimeout {PolicyT TimeT W} _ _ _ _.
Arguments mkCollaborators {PolicyT TimeT W} _ _ _ _.
Arguments EvPolicy {PolicyT TimeT} _ _.
Arguments EvListHosts {PolicyT TimeT} _ _.
Arguments EvPost {PolicyT TimeT} _ _ _.
Arguments EvRemoveHosts {PolicyT TimeT} _ _ _.
Arguments iteration {PolicyT TimeT W} c appConfig now policyID _.
Arguments range {PolicyT TimeT W} c appConfig now policyIDs _.
Arguments TriggerFailingPoliciesWebhook {PolicyT TimeT W} c appConfig now _.

(** *** What a trace shows *)
Section Observers.

Context {PolicyT TimeT : Type}.

Abbreviation Event := (event PolicyT TimeT).

Definition is_post (ev : Event) : bool :=
  match ev with EvPost _ _ _ => true | _ => false end.

Definition is_remove (ev : Event) : bool :=
  match ev with EvRemoveHosts _ _ _ => true | _ => false end.

(** The delivery attempts of a trace. *)
Definition deliveries (tr : list Event) : list Event := List.filter is_post tr.

(** The identifiers delivery was attempted for, in the order of the
    attempts: a post belongs to the turn of the loop opened by the
    latest [ds.Policy] call before it. *)
Fixpoint delivered_from (cur : option uint) (tr : list Event) : list uint :=
  match tr with
  | [] => []
  | EvPolicy policyID _ :: tr' => delivered_from (Some policyID) tr'
  | EvPost _ _ _ :: tr' =>
      match cur with
      | Some policyID => policyID :: delivered_from cur tr'
      | None => delivered_from cur tr'
      end
  | _ :: tr' => delivered_from cur tr'
  end.

Definition delivered_for (tr : list Event) : list uint := delivered_from None tr.

(** An event that carries no host: an empty snapshot, a payload of
    zero hosts, a removal of nothing. *)
Definition carries_no_host (ev : Event) : Prop :=
  match ev with
  | EvPolicy _ _ => True
  | EvListHosts _ (hosts, _) => hosts = []
  | EvPost _ payload _ => FailingHosts payload = []
  | EvRemoveHosts _ hosts _ => hosts = []
  end.

End Observers.

(** *** The payload on the wire

    [json.Marshal] of a payload, field by field from the struct tags;
    [server.PostJSONWithTimeout] sends its argument encoded so.  The
    encodings of [time.Time] and of [fleet.Policy] are theirs. *)
Section Wire.

Context {PolicyT TimeT : Type}.
Variable time_json : TimeT -> json.value.
Variable policy_json : PolicyT -> json.value.

Definition FailingHost_fields (h : FailingHost) : list json.field :=
  [ json.mkField "ID" (Some "id") (json.Number (ID h));
    json.mkField "Hostname" (Some "hostname") (json.String (Hostname h));
    json.mkField "URL" (Some "url") (json.String (URL h)) ].

Definition FailingHost_json (h : FailingHost) : json.value :=
  json.marshalStruct (FailingHost_fields h).

Definition FailingPoliciesPayload_fields
    (p : FailingPoliciesPayload PolicyT TimeT) : list json.field :=
  [ json.mkField "Timestamp" (Some "timestamp") (time_json (Timestamp p));
    json.mkField "Policy" (Some "policy")
      (match Policy p with
       | None => json.Null
       | Some pol => policy_json pol
       end);
    json.mkField "FailingHosts" (Some "hosts")
      (json.Array (map FailingHost_json (FailingHosts p))) ].

Definition Marshal (p : FailingPoliciesPayload PolicyT TimeT) : json.value :=
  json.marshalStruct (FailingPoliciesPayload_fields p).

End Wire.

(** *** How a turn of the loop fails *)
Inductive fatal_stage := AtPolicy | AtListHosts | AtDelivery | AtRemoveHosts.

Section Failure.

Context {PolicyT TimeT W : Type}.
Variable c : Collaborators PolicyT TimeT W.
Variables (appConfig : AppConfig) (now : TimeT).

Definition destination : string :=
  DestinationURL (FailingPoliciesWebhook (WebhookSettings appConfig)).

Definition payload_of (policy : option PolicyT) (hosts : list service.PolicySetHost)
  : FailingPoliciesPayload PolicyT TimeT :=
  {| Timestamp := now;
     Policy := policy;
     FailingHosts := fillFailingHosts hosts (ServerURL (ServerSettings appConfig)) |}.

(** [iteration_fails policyID w stage e evs w']: from world [w], the
    turn for [policyID] meets the error [e] at [stage], after the
    calls [evs], and leaves the world [w']. *)
Inductive iteration_fails (policyID : uint) (w : W)
  : fatal_stage -> error -> list (event PolicyT TimeT) -> W -> Prop :=
| fails_at_policy policy e w1 :
    ds_Policy c policyID w = ((policy, Some e), w1) ->
    errors.Is_ErrNoRows e = false ->
    iteration_fails policyID w AtPolicy e
      [EvPolicy policyID (policy, Some e)] w1
| fails_at_list policy hosts e w1 w2 :
    ds_Policy c policyID w = ((policy, None), w1) ->
    set_ListHosts c policyID w1 = ((hosts, Some e), w2) ->
    iteration_fails policyID w AtListHosts e
      [EvPolicy policyID (policy, None);
       EvListHosts policyID (hosts, Some e)] w2
| fails_at_delivery policy hosts e w1 w2 w3 :
    ds_Policy c policyID w = ((policy, None), w1) ->
    set_ListHosts c policyID w1 = ((hosts, None), w2) ->
    PostJSONWithTimeout c destination (payload_of policy hosts) w2 = (Some e, w3) ->
    iteration_fails policyID w AtDelivery e
      [EvPolicy policyID (policy, None);
       EvListHosts policyID (hosts, None);
       EvPost destination (payload_of policy hosts) (Some e)] w3
| fails_at_remove policy hosts e w1 w2 w3 w4 :
    ds_Policy c policyID w = ((policy, None), w1) ->
    set_ListHosts c policyID w1 = ((hosts, None), w2) ->
    PostJSONWithTimeout c destination (payload_of policy hosts) w2 = (None, w3) ->
    set_RemoveHosts c policyID hosts w3 = (Some e, w4) ->
    iteration_fails policyID w AtRemoveHosts e
      [EvPolicy policyID (policy, None);
       EvListHosts policyID (hosts, None);
       EvPost destination (payload_of policy hosts) None;
       EvRemoveHosts policyID hosts (Some e)] w4.

(** The calls of one turn of the loop for [policyID], whatever the
    world answers: the turn stops after the first call that fails. *)
Inductive turn_events (policyID : uint) : list (event PolicyT TimeT) -> Prop :=
| turn_policy policy e :
    turn_events policyID [EvPolicy policyID (policy, Some e)]
| turn_list policy hosts e :
    turn_events policyID
      [EvPolicy policyID (policy, None);
       EvListHosts policyID (hosts, Some e)]
| turn_post policy hosts e :
    turn_events policyID
      [EvPolicy policyID (policy, None);
       EvListHosts policyID (hosts, None);
       EvPost destination (payload_of policy hosts) (Some e)]
| turn_remove policy hosts res :
    turn_events policyID
      [EvPolicy policyID (policy, None);
       EvListHosts policyID (hosts, None);
       EvPost destination (payload_of policy hosts) None;
       EvRemoveHosts policyID hosts res].

(** The calls of a cycle over [policyIDs]: turns for a prefix of the
    list, in its order. *)
Inductive cycle_events : list uint -> list (event PolicyT TimeT) -> Prop :=
| cycle_stop policyIDs : cycle_events policyIDs []
| cycle_turn policyID rest evs tr :
    turn_events policyID evs ->
    cycle_events rest tr ->
    cycle_events (policyID :: rest) (evs ++ tr)%list.

End Failure.

End webhooks.

(** ** An in-memory world

    Used to run the cycle on concrete inputs and to state what two runs
    in a row do. *)
Module memstore.

Import webhooks.

Definition has_host (hostID : uint) (hosts : list service.PolicySetHost) : bool :=
  existsb (fun h => service.ID h =? hostID) hosts.

(** Modelled from the spec: the FailingPolicySet store (section 4.1),
    whose implementations are not part of the sources.  It maps a
    policy identifier to the hosts failing it, a host identifier at
    most once per policy; an absent policy has zero members.
    [listHosts] returns the current members. *)
Definition listHosts (policyID : uint) (s : gmap Z (list service.PolicySetHost))
  : list service.PolicySetHost :=
  default [] (s !! policyID).

(** Modelled from the spec: [addHost] (section 4.1), idempotent
    insertion of a host into a policy's set. *)
Definition addHost (policyID : uint) (host : service.PolicySetHost)
    (s : gmap Z (list service.PolicySetHost)) : gmap Z (list service.PolicySetHost) :=
  if has_host (service.ID host) (listHosts policyID s) then s
  else <[policyID := (listHosts policyID s ++ [host])%list]> s.

(** Modelled from the spec: [removeHosts] (section 4.1), the
    set difference of a policy's members against the supplied list;
    identifiers already absent are ignored. *)
Definition removeHosts (policyID : uint) (hosts : list service.PolicySetHost)
    (s : gmap Z (list service.PolicySetHost)) : gmap Z (list service.PolicySetHost) :=
  match s !! policyID with
  | None => s
  | Some members =>
      <[policyID :=
          List.filter (fun h => negb (has_host (service.ID h) hosts)) members]> s
  end.

Section World.

Context {PolicyT TimeT : Type}.

(** The policy catalog and the destination answer by fixed
    functions; [meanwhile] is what the evaluation engine does to the
    set while a delivery is in flight.  The store itself never
    fails. *)
Variable lookup : uint -> option PolicyT * option error.
Variable deliver : string -> FailingPoliciesPayload PolicyT TimeT -> option error.
Variable meanwhile : gmap Z (list service.PolicySetHost) ->
                     gmap Z (list service.PolicySetHost).

(** The catalog has the policy. *)
Definition found (policyID : uint) : bool :=
  match snd (lookup policyID) with
  | None => true
  | Some _ => false
  end.

(** The catalog answers not-found. *)
Definition deleted (policyID : uint) : bool :=
  match snd (lookup policyID) with
  | None => false
  | Some e => errors.Is_ErrNoRows e
  end.

Definition collaborators
  : Collaborators PolicyT TimeT (gmap Z (list service.PolicySetHost)) :=
  {| ds_Policy := fun policyID w => (lookup policyID, w);
     set_ListHosts := fun policyID w => ((listHosts policyID w, None), w);
     set_RemoveHosts := fun policyID hosts w => (None, removeHosts policyID hosts w);
     PostJSONWithTimeout := fun url payload w => (deliver url payload, meanwhile w) |}.

End World.

End memstore.

(** ** Concrete worlds *)
Module scenario.

Import fleet webhooks memstore.

Definition config (policyIDs : list uint) (enable : bool) : AppConfig :=
  {| WebhookSettings :=
       {| FailingPoliciesWebhook :=
            {| Enable := enable;
               PolicyIDs := policyIDs;
               DestinationURL := "https://hooks.example.com/failing" |} |};
     ServerSettings := {| ServerURL := "https://fleet.example.com" |} |}.

Definition alice := service.mkPolicySetHost 101 "alice-laptop".
Definition bob := service.mkPolicySetHost 102 "bob-laptop".
Definition carol := service.mkPolicySetHost 103 "carol-laptop".

(** Policies are their names here, times are seconds. *)
Definition disk_encryption : string := "Disk encryption enabled".

Definition catalog (policyID : uint) : option string * option error :=
  if policyID =? 7 then (Some disk_encryption, None)
  else if policyID =? 9 then (None, Some (errorString "connection refused"))
  else (None, Some sql_ErrNoRows).

Definition accept (url : string) (p : FailingPoliciesPayload string Z)
  : option error := None.

Definition timeout (url : string) (p : FailingPoliciesPayload string Z)
  : option error := Some (errorString "context deadline exceeded").

Definition quiet (s : gmap Z (list service.PolicySetHost)) := s.

Definition failing7 : gmap Z (list service.PolicySetHost) := {[ 7 := [alice; bob] ]}.

Definition now : Z := 1700000000.

Definition run (deliver : string -> FailingPoliciesPayload string Z -> option error)
    (meanwhile : gmap Z (list service.PolicySetHost) -> gmap Z (list service.PolicySetHost))
    (cfg : AppConfig) (s : gmap Z (list service.PolicySetHost)) :=
  TriggerFailingPoliciesWebhook (collaborators catalog deliver meanwhile) cfg now (s, []).

Definition hook : string := "https://hooks.example.com/failing".

(** The payload the cycle builds for policy 7 from a snapshot. *)
Definition payload7 (hosts : list service.PolicySetHost)
  : FailingPoliciesPayload string Z :=
  payload_of (config [7] true) now (Some disk_encryption) hosts.

(** The world answers as it should, and no host joins meanwhile. *)
Definition steady : Collaborators string Z (gmap Z (list service.PolicySetHost)) :=
  collaborators catalog accept quiet.

(** The destination times out. *)
Definition outage : Collaborators string Z (gmap Z (list service.PolicySetHost)) :=
  collaborators catalog timeout quiet.

(** Carol's laptop starts failing policy 7 while a delivery is in
    flight. *)
Definition busy : Collaborators string Z (gmap Z (list service.PolicySetHost)) :=
  collaborators catalog accept (addHost 7 carol).

(** The set of policy 7 once its members were removed. *)
Definition drained7 : gmap Z (list service.PolicySetHost) := {[ 7 := [] ]}.

(** The calls of a full turn for policy 7 over the snapshot [hosts]. *)
Definition turn7 (hosts : list service.PolicySetHost) : list (event string Z) :=
  [EvPolicy 7 (Some disk_encryption, None);
   EvListHosts 7 (hosts, None);
   EvPost hook (payload7 hosts) None;
   EvRemoveHosts 7 hosts None].

Definition deadline : error := errorString "context deadline exceeded".

End scenario.


(** ** More to read off a trace *)
Section Outcome.

Import webhooks.

Context {PolicyT TimeT : Type}.

(** The error a call returned. *)
Definition event_error (ev : event PolicyT TimeT) : option error :=
  match ev with
  | EvPolicy _ (_, err) => err
  | EvListHosts _ (_, err) => err
  | EvPost _ _ err => err
  | EvRemoveHosts _ _ err => err
  end.

(** A call whose error ends the cycle: any error, but for a metadata
    lookup that answers not-found. *)
Definition fatal (ev : event PolicyT TimeT) : bool :=
  match ev with
  | EvPolicy _ (_, Some e) => negb (errors.Is_ErrNoRows e)
  | _ => match event_error ev with Some _ => true | None => false end
  end.

(** The identifiers [ds.Policy] was called with, in the order of the
    calls. *)
Definition looked_up (tr : list (event PolicyT TimeT)) : list uint :=
  omap (fun ev => match ev with EvPolicy policyID _ => Some policyID | _ => None end) tr.

Definition is_policy (ev : event PolicyT TimeT) : bool :=
  match ev with EvPolicy _ _ => true | _ => false end.

Definition is_list (ev : event PolicyT TimeT) : bool :=
  match ev with EvListHosts _ _ => true | _ => false end.

(** How many calls of a kind a trace has. *)
Definition calls (kind : event PolicyT TimeT -> bool) (tr : list (event PolicyT TimeT))
  : nat :=
  length (List.filter kind tr).

(** The host was in a payload that the destination accepted. *)
Definition reported (tr : list (event PolicyT TimeT))
    (h : service.PolicySetHost) : Prop :=
  exists url (payload : FailingPoliciesPayload PolicyT TimeT),
    EvPost url payload None ∈ tr
    /\ service.ID h ∈ map ID (FailingHosts payload).

(** The snapshot entry a payload entry was made from. *)
Definition hostOf (fh : FailingHost) : service.PolicySetHost :=
  service.mkPolicySetHost (ID fh) (Hostname fh).

End Outcome.

(** ** Slashes in a path *)

(** Two slashes in a row somewhere in a byte sequence. *)
Fixpoint double_slash (l : list ascii) : bool :=
  match l with
  | a :: rest =>
      match rest with
      | b :: _ => (byte_eqb a path.slash && byte_eqb b path.slash) || double_slash rest
      | [] => false
      end
  | [] => false
  end.

Definition has_double_slash (s : string) : bool := double_slash (bytes s).

(** The sequence ends with a slash. *)
Definition last_is_slash (l : list ascii) : bool :=
  match last l with
  | Some a => byte_eqb a path.slash
  | None => false
  end.

(** The buffer of [Clean] over the input [p] is in order: it is written
    over [p], not past its length, and its own slice, once made, has
    the length of [p]. *)
Definition lazybuf_wf (p : list ascii) (out : path.lazybuf) : Prop :=
  path.s out = p
  /\ (path.w out <= length p)%nat
  /\ forall bf, path.buf out = Some bf -> length bf = length p.

(** What the main loop of [Clean] keeps true between two turns: the
    output is not ahead of the input, has no two slashes in a row, ends
    with a slash only as the root, and the same holds up to [dotdot]. *)
Definition clean_inv (p : list ascii) (rooted : bool) (r dotdot : nat)
    (out : path.lazybuf) : Prop :=
  lazybuf_wf p out
  /\ (r <= length p)%nat
  /\ (path.w out <= r)%nat
  /\ (path.w out = r ->
      (rooted = false /\ r = 0%nat) \/ (rooted = true /\ r = 1%nat)
      \/ r = length p \/ byte_eqb (path.at_ p r) path.slash = true)
  /\ double_slash (path.string_ out) = false
  /\ (path.w out = 0%nat \/ (rooted = true /\ path.w out = 1%nat)
      \/ last_is_slash (path.string_ out) = false)
  /\ (dotdot <= path.w out)%nat
  /\ (dotdot = 0%nat \/ (rooted = true /\ dotdot = 1%nat)
      \/ last_is_slash (take dotdot (path.string_ out)) = false).

(** ** Command [fleetctl]: building the API client (file [api.go]) *)
Module fleetctl.

(** The fields of a configuration context that [api.go] reads. *)
Record Context := mkContext {
  Address : string;
  TLSSkipVerify : bool;
  RootCA : string;
  URLPrefix : string
}.

(** [var zeroCtx Context]. *)
Definition zeroCtx : Context :=
  {| Address := ""; TLSSkipVerify := false; RootCA := ""; URLPrefix := "" |}.

(** The configuration file as [readConfig] returns it. *)
Record configFile := mkConfigFile {
  Contexts : gmap string Context
}.

(** What the process shows of its surroundings: whether it runs under
    [go test] ([flag.Lookup("test.v") != nil]), its environment
    variables, and the operating system it was built for. *)
Record Process := mkProcess {
  testing : bool;
  Getenv : string -> string;
  GOOS : string
}.

(** The two checks [unauthenticatedClientFromConfig] makes on a context
    before it builds a client, outside of tests. *)
Definition usable (proc : Process) (cc : Context) : bool :=
  negb (String.eqb (Address cc) "")
  && negb (String.eqb (GOOS proc) "windows" && String.eqb (RootCA cc) ""
           && negb (TLSSkipVerify cc)).

(** The warning of a version mismatch, as [Fprintf] formats it. *)
Definition mismatch_warning (clientVersion serverVersion : string) : string :=
  "Warning: Version mismatch." ++ String.String (ascii_of_nat 10) EmptyString
  ++ "Client Version:   " ++ clientVersion ++ String.String (ascii_of_nat 10) EmptyString
  ++ "Server Version:  " ++ serverVersion ++ String.String (ascii_of_nat 10) EmptyString.

(** The end of line that [Fprintln] writes. *)
Definition nl : string := String.String (ascii_of_nat 10) EmptyString.

(** A result, or the panic of a nil dereference. *)
Inductive outcome (A : Type) :=
| Done (a : A)
| Panic.

Arguments Done {A} a.
Arguments Panic {A}.

Section Client.

(** [service.Client], the values held in the configuration
    ([interface{}]), [io.Writer], and the world of files and servers
    around the command. *)
Variables Client Any Writer W : Type.

Inductive ClientOption :=
| SetClientWriter (w : Writer)
| EnableClientDebug.

(** [cli.Context]: the values of the flags, which of them were set, and
    the writer of the application. *)
Record CLI := mkCLI {
  String_ : string -> string;
  IsSet : string -> bool;
  App_Writer : Writer
}.

(** What the file calls and does not define: the helpers of the
    configuration file, the constructor and the methods of the client,
    the formatting verbs of [fmt], and the test
    [errors.Is(err, service.ErrUnauthenticated)]. *)
Record Deps := mkDeps {
  getDebug : CLI -> bool;
  makeConfigIfNotExists : string -> W -> option error * W;
  readConfig : string -> W -> (configFile * option error) * W;
  getConfigValue : string -> string -> string -> W -> (Any * option error) * W;
  NewClient : string -> bool -> string -> string -> list ClientOption ->
              W -> (option Client * option error) * W;
  SetToken : Client -> string -> W -> W;
  Version : Client -> W -> (option string * option error) * W;
  version_Version : string;
  asString : Any -> option string;
  typeName : Any -> string;
  show : Any -> string;
  Quote : string -> string;
  is_ErrUnauthenticated : error -> bool
}.

(** What the command does to the world, in order. *)
Inductive effect :=
| Stderr (text : string)
| DidMakeConfig (path : string)
| DidReadConfig (path : string)
| DidGetConfigValue (path context key : string)
| DidNewClient (address : string) (insecureSkipVerify : bool)
    (rootCA urlPrefix : string) (options : list ClientOption)
| DidSetToken (client : Client) (token : string)
| DidVersion (client : Client) (res : option string * option error).

Definition M (A : Type) : Type := W * list effect -> outcome A * (W * list effect).

Definition ret {A} (a : A) : M A := fun st => (Done a, st).

Definition panic {A} : M A := fun st => (Panic, st).

Definition bind {A B} (m : M A) (k : A -> M B) : M B :=
  fun st =>
    match m st with
    | (Done a, st') => k a st'
    | (Panic, st') => (Panic, st')
    end.

(** A call that answers. *)
Definition call {A} (f : W -> A * W) (ef : A -> effect) : M A :=
  fun '(w, tr) => let '(a, w') := f w in (Done a, (w', tr ++ [ef a])%list).

(** A call that only acts. *)
Definition act (f : W -> W) (ef : effect) : M unit :=
  fun '(w, tr) => (Done tt, (f w, tr ++ [ef])%list).

(** [fmt.Fprintln(os.Stderr, text)]. *)
Definition Fprintln_Stderr (text : string) : M unit :=
  act (fun w => w) (Stderr (text ++ nl)).

(** [fmt.Fprintf(os.Stderr, ...)] with the text already formatted. *)
Definition Fprintf_Stderr (text : string) : M unit :=
  act (fun w => w) (Stderr text).

Notation "x <- m ;; k" := (bind m (fun x => k))
  (at level 100, m at next level, right associativity).

Variable proc : Process.
Variable d : Deps.

Definition unauthenticatedClientFromConfig (cc : Context) (debug : bool) (w : Writer)
  : M (option Client * option error) :=
  let options := [SetClientWriter w] in
  if testing proc then
    call (NewClient d (Getenv proc "FLEET_SERVER_ADDRESS") true "" "" options)
         (fun _ => DidNewClient (Getenv proc "FLEET_SERVER_ADDRESS") true "" "" options)
  else if String.eqb (Address cc) "" then
    ret (None, Some (errorString
      "set the Fleet API address with: fleetctl config set --address https://localhost:8080"))
  else if String.eqb (GOOS proc) "windows" && String.eqb (RootCA cc) ""
          && negb (TLSSkipVerify cc) then
    ret (None, Some (errorString
      "Windows clients must configure rootca (secure) or tls-skip-verify (insecure)"))
  else
    let options := if debug then (options ++ [EnableClientDebug])%list else options in
    r <- call (NewClient d (Address cc) (TLSSkipVerify cc) (RootCA cc) (URLPrefix cc)
                 options)
              (fun _ => DidNewClient (Address cc) (TLSSkipVerify cc) (RootCA cc)
                          (URLPrefix cc) options) ;;
    let '(fleet, err) := r in
    match err with
    | Some e =>
        ret (None, Some (wrapError "error creating Fleet API client handler: %w" [] e))
    | None => ret (fleet, None)
    end.

Definition clientConfigFromCLI (c : CLI) : M (Context * option error) :=
  if testing proc then
    ret ({| Address := Getenv proc "FLEET_SERVER_ADDRESS";
            TLSSkipVerify := true;
            RootCA := "";
            URLPrefix := "" |}, None)
  else
    err <- call (makeConfigIfNotExists d (String_ c "config"))
                (fun _ => DidMakeConfig (String_ c "config")) ;;
    match err with
    | Some e =>
        ret (zeroCtx,
             Some (wrapError "error verifying that config exists at %s: %w"
                     [ArgString (String_ c "config")] e))
    | None =>
        r <- call (readConfig d (String_ c "config"))
                  (fun _ => DidReadConfig (String_ c "config")) ;;
        let '(config, err) := r in
        match err with
        | Some e => ret (zeroCtx, Some e)
        | None =>
            match Contexts config !! String_ c "context" with
            | None =>
                ret (zeroCtx,
                     Some (errorString ("context " ++ Quote d (String_ c "context")
                                        ++ " is not found")))
            | Some cc => ret (cc, None)
            end
        end
    end.

Definition unauthenticatedClientFromCLI (c : CLI) : M (option Client * option error) :=
  r <- clientConfigFromCLI c ;;
  let '(cc, err) := r in
  match err with
  | Some e => ret (None, Some e)
  | None => unauthenticatedClientFromConfig cc (getDebug d c) (App_Writer c)
  end.

(** [fleet.SetToken(token)] through a pointer that may be nil. *)
Definition setToken (fleet : option Client) (token : string) : M unit :=
  match fleet with
  | Some cl => act (SetToken d cl token) (DidSetToken cl token)
  | None => panic
  end.

(** [clientFromCLI] once the client is built: the token, then the
    version of the server. *)
Definition authenticate (c : CLI) (fleet : option Client)
  : M (option Client * option error) :=
  let configPath := String_ c "config" in
  let context := String_ c "context" in
  (* if a config file is explicitly provided, do not set an invalid
     arbitrary token *)
  if negb (IsSet c "config") && testing proc then
    _ <- setToken fleet "AAAA" ;;
    ret (fleet, None)
  else
    (* Add authentication token *)
    r <- call (getConfigValue d configPath context "token")
              (fun _ => DidGetConfigValue configPath context "token") ;;
    let '(t, err) := r in
    match err with
    | Some e =>
        ret (None, Some (wrapError "error getting token from the config: %w" [] e))
    | None =>
        match asString d t with
        | None =>
            _ <- Fprintln_Stderr "Token invalid. Please log in with: fleetctl login" ;;
            ret (None,
                 Some (errorString ("token config value expected type string, got "
                                    ++ typeName d t ++ ": " ++ show d t)))
        | Some token =>
            if String.eqb token "" then
              _ <- Fprintln_Stderr "Token missing. Please log in with: fleetctl login" ;;
              ret (None, Some (errorString "token config value missing"))
            else
              _ <- setToken fleet token ;;
              (* Check if version matches fleet server. Also ensures that
                 the token is valid. *)
              let clientInfo := version_Version d in
              match fleet with
              | None => panic
              | Some cl =>
                  r <- call (Version d cl) (DidVersion cl) ;;
                  let '(serverInfo, err) := r in
                  match err with
                  | Some e =>
                      _ <- (if is_ErrUnauthenticated d e then
                              Fprintln_Stderr
                                "Token invalid or session expired. Please log in with: fleetctl login"
                            else ret tt) ;;
                      ret (None, Some e)
                  | None =>
                      match serverInfo with
                      | None => panic
                      | Some serverVersion =>
                          _ <- (if negb (String.eqb clientInfo serverVersion) then
                                  Fprintf_Stderr
                                    (mismatch_warning clientInfo serverVersion)
                                else ret tt) ;;
                          (* This is just a warning, continue ... *)
                          ret (fleet, None)
                      end
                  end
              end
        end
    end.

Definition clientFromCLI (c : CLI) : M (option Client * option error) :=
  r <- unauthenticatedClientFromCLI c ;;
  let '(fleet, err) := r in
  match err with
  | Some e => ret (None, Some e)
  | None => authenticate c fleet
  end.

(** What [authenticate] returns and does, case by case. *)
Inductive client_tail (c : CLI)
  : outcome (option Client * option error) -> list effect -> Prop :=
| tail_test cl :
    IsSet c "config" = false -> testing proc = true ->
    client_tail c (Done (Some cl, None)) [DidSetToken cl "AAAA"]
| tail_test_nil :
    IsSet c "config" = false -> testing proc = true ->
    client_tail c Panic []
| tail_nil_client :
    negb (IsSet c "config") && testing proc = false ->
    client_tail c Panic
      [DidGetConfigValue (String_ c "config") (String_ c "context") "token"]
| tail_version_nil cl token :
    negb (IsSet c "config") && testing proc = false ->
    token <> "" ->
    client_tail c Panic
      [DidGetConfigValue (String_ c "config") (String_ c "context") "token";
       DidSetToken cl token;
       DidVersion cl (None, None)]
| tail_no_token e :
    negb (IsSet c "config") && testing proc = false ->
    client_tail c
      (Done (None, Some (wrapError "error getting token from the config: %w" [] e)))
      [DidGetConfigValue (String_ c "config") (String_ c "context") "token"]
| tail_bad_token e :
    negb (IsSet c "config") && testing proc = false ->
    client_tail c (Done (None, Some e))
      [DidGetConfigValue (String_ c "config") (String_ c "context") "token";
       Stderr ("Token invalid. Please log in with: fleetctl login" ++ nl)]
| tail_empty_token :
    negb (IsSet c "config") && testing proc = false ->
    client_tail c (Done (None, Some (errorString "token config value missing")))
      [DidGetConfigValue (String_ c "config") (String_ c "context") "token";
       Stderr ("Token missing. Please log in with: fleetctl login" ++ nl)]
| tail_version_error cl token serverInfo e :
    negb (IsSet c "config") && testing proc = false ->
    token <> "" ->
    client_tail c (Done (None, Some e))
      ([DidGetConfigValue (String_ c "config") (String_ c "context") "token";
        DidSetToken cl token;
        DidVersion cl (serverInfo, Some e)] ++
       if is_ErrUnauthenticated d e
       then [Stderr ("Token invalid or session expired. Please log in with: fleetctl login"
                     ++ nl)]
       else [])%list
| tail_ok cl token serverVersion :
    negb (IsSet c "config") && testing proc = false ->
    token <> "" ->
    client_tail c (Done (Some cl, None))
      ([DidGetConfigValue (String_ c "config") (String_ c "context") "token";
        DidSetToken cl token;
        DidVersion cl (Some serverVersion, None)] ++
       if negb (String.eqb (version_Version d) serverVersion)
       then [Stderr (mismatch_warning (version_Version d) serverVersion)]
       else [])%list.

End Client.

Section RawHTTP.

(** [url.URL], [x509.CertPool], [http.Client], the bytes of a file, and
    the world of files. *)
Variables URL CertPool HTTPClient Bytes W : Type.

(** [tls.Config], the two fields the file sets. *)
Record tlsConfig := mkTlsConfig {
  InsecureSkipVerify : bool;
  RootCAs : option CertPool
}.

(** What [rawHTTPClientFromConfig] calls: [url.Parse], [ioutil.ReadFile],
    a new pool filled by [AppendCertsFromPEM] (with its [ok]), and
    [fleethttp.NewClient] with the TLS configuration. *)
Record RawDeps := mkRawDeps {
  url_Parse : string -> option URL * option error;
  ReadFile : string -> W -> (Bytes * option error) * W;
  AppendCertsFromPEM : Bytes -> CertPool * bool;
  fleethttp_NewClient : tlsConfig -> HTTPClient
}.

Variable proc : Process.
Variable rd : RawDeps.

(** The files read, in order. *)
Definition rawHTTPClientFromConfig (cc : Context)
  : W * list string -> (option HTTPClient * option URL * option error) * (W * list string) :=
  fun '(w, reads) =>
    let cc := if testing proc
              then {| Address := Getenv proc "FLEET_SERVER_ADDRESS";
                      TLSSkipVerify := TLSSkipVerify cc;
                      RootCA := RootCA cc;
                      URLPrefix := URLPrefix cc |}
              else cc in
    let '(baseURL, err) := url_Parse rd (Address cc) in
    match err with
    | Some e => ((None, None, Some (wrapError "parse address: %w" [] e)), (w, reads))
    | None =>
        let finish (rootCA : option CertPool) st :=
          ((Some (fleethttp_NewClient rd
                    {| InsecureSkipVerify := TLSSkipVerify cc; RootCAs := rootCA |}),
            baseURL, None), st) in
        if negb (String.eqb (RootCA cc) "") then
          (* read in the root cert file specified in the context *)
          let '((certs, err), w') := ReadFile rd (RootCA cc) w in
          let reads' := (reads ++ [RootCA cc])%list in
          match err with
          | Some e =>
              ((None, None, Some (wrapError "reading root CA: %w" [] e)), (w', reads'))
          | None =>
              (* add certs to pool *)
              let '(rootCA, ok) := AppendCertsFromPEM rd certs in
              if negb ok then
                ((None, None,
                  Some (errorString "failed to add certificates to root CA pool")),
                 (w', reads'))
              else finish (Some rootCA) (w', reads')
          end
        else finish None (w, reads)
    end.

End RawHTTP.

Arguments SetClientWriter {Writer} w.
Arguments EnableClientDebug {Writer}.
Arguments mkCLI {Writer} _ _ _.
Arguments String_ {Writer} _ _.
Arguments IsSet {Writer} _ _.
Arguments App_Writer {Writer} _.
Arguments mkDeps {Client Any Writer W}.
Arguments getDebug {Client Any Writer W} _ _.
Arguments makeConfigIfNotExists {Client Any Writer W} _ _ _.
Arguments readConfig {Client Any Writer W} _ _ _.
Arguments getConfigValue {Client Any Writer W} _ _ _ _ _.
Arguments NewClient {Client Any Writer W} _ _ _ _ _ _ _.
Arguments SetToken {Client Any Writer W} _ _ _ _.
Arguments Version {Client Any Writer W} _ _ _.
Arguments version_Version {Client Any Writer W} _.
Arguments asString {Client Any Writer W} _ _.
Arguments typeName {Client Any Writer W} _ _.
Arguments show {Client Any Writer W} _ _.
Arguments Quote {Client Any Writer W} _ _.
Arguments is_ErrUnauthenticated {Client Any Writer W} _ _.
Arguments Stderr {Client Writer} text.
Arguments DidMakeConfig {Client Writer} path.
Arguments DidReadConfig {Client Writer} path.
Arguments DidGetConfigValue {Client Writer} path context key.
Arguments DidNewClient {Client Writer} address insecureSkipVerify rootCA urlPrefix options.
Arguments DidSetToken {Client Writer} client token.
Arguments DidVersion {Client Writer} client res.
Arguments unauthenticatedClientFromConfig {Client Any Writer W} proc d cc debug w _.
Arguments clientConfigFromCLI {Client Any Writer W} proc d c _.
Arguments unauthenticatedClientFromCLI {Client Any Writer W} proc d c _.
Arguments authenticate {Client Any Writer W} proc d c fleet _.
Arguments clientFromCLI {Client Any Writer W} proc d c _.
Arguments client_tail {Client Any Writer W} proc d c _ _.
Arguments tail_version_error {Client Any Writer W} proc d c cl token serverInfo e _ _.
Arguments tail_ok {Client Any Writer W} proc d c cl token serverVersion _ _.
Arguments mkTlsConfig {CertPool} _ _.
Arguments InsecureSkipVerify {CertPool} _.
Arguments RootCAs {CertPool} _.
Arguments mkRawDeps {URL CertPool HTTPClient Bytes W}.
Arguments url_Parse {URL CertPool HTTPClient Bytes W} _ _.
Arguments ReadFile {URL CertPool HTTPClient Bytes W} _ _ _.
Arguments AppendCertsFromPEM {URL CertPool HTTPClient Bytes W} _ _.
Arguments fleethttp_NewClient {URL CertPool HTTPClient Bytes W} _ _.
Arguments rawHTTPClientFromConfig {URL CertPool HTTPClient Bytes W} proc rd cc _.

(** Which effects are what. *)
Section Effects.

Context {Client Writer : Type}.

Definition is_stderr (ef : effect Client Writer) : bool :=
  match ef with Stderr _ => true | _ => false end.

Definition is_file (ef : effect Client Writer) : bool :=
  match ef with
  | DidMakeConfig _ | DidReadConfig _ | DidGetConfigValue _ _ _ => true
  | _ => false
  end.

Definition is_server (ef : effect Client Writer) : bool :=
  match ef with DidVersion _ _ => true | _ => false end.

Definition is_new_client (ef : effect Client Writer) : bool :=
  match ef with DidNewClient _ _ _ _ _ => true | _ => false end.

(** What building the client may do: look after the configuration file
    and construct the client. *)
Definition is_setup (ef : effect Client Writer) : bool :=
  match ef with
  | DidMakeConfig _ | DidReadConfig _ | DidNewClient _ _ _ _ _ => true
  | _ => false
  end.

End Effects.


End fleetctl.

(** ** A concrete command line *)
Module cli_scenario.

Import fleetctl.

(** Clients are their addresses, configuration values are strings or
    booleans, the world counts the calls made to the server. *)
Definition home : Context :=
  {| Address := "https://fleet.example.com";
     TLSSkipVerify := false;
     RootCA := "";
     URLPrefix := "" |}.

Definition flags (name : string) : string :=
  if String.eqb name "config" then "/home/ops/.fleet/config"
  else if String.eqb name "context" then "default"
  else "".

Definition cmdline : CLI unit :=
  {| String_ := flags; IsSet := fun _ => false; App_Writer := tt |}.

Definition deps (token : string + bool) (server : option string * option error)
  : Deps string (string + bool) unit nat :=
  {| getDebug := fun _ => false;
     makeConfigIfNotExists := fun _ w => (None, w);
     readConfig := fun _ w => (({| Contexts := {[ "default" := home ]} |}, None), w);
     getConfigValue := fun _ _ _ w => ((token, None), w);
     NewClient := fun address _ _ _ _ w => ((Some address, None), w);
     SetToken := fun _ _ w => w;
     Version := fun _ w => (server, S w);
     version_Version := "4.2.0";
     asString := fun t => match t with inl s => Some s | inr _ => None end;
     typeName := fun t => match t with inl _ => "string" | inr _ => "bool" end;
     show := fun t => match t with
                      | inl s => s
                      | inr true => "true"
                      | inr false => "false"
                      end;
     Quote := fun s => "'" ++ s ++ "'";
     is_ErrUnauthenticated := fun e => match e with
                                       | errorString "unauthenticated" => true
                                       | _ => false
                                       end |}.

Definition linux : Process :=
  {| testing := false; Getenv := fun _ => ""; GOOS := "linux" |}.

Definition under_test : Process :=
  {| testing := true;
     Getenv := fun name =>
       if String.eqb name "FLEET_SERVER_ADDRESS" then "https://127.0.0.1:8080" else "";
     GOOS := "linux" |}.

(** What building the client from the file does. *)
Definition setup : list (effect string unit) :=
  [DidMakeConfig "/home/ops/.fleet/config";
   DidReadConfig "/home/ops/.fleet/config";
   DidNewClient "https://fleet.example.com" false "" "" [SetClientWriter tt]].

Definition asked : effect string unit :=
  DidGetConfigValue "/home/ops/.fleet/config" "default" "token".

(** The run of a client whose server is one version behind. *)
Definition behind : Deps string (string + bool) unit nat :=
  deps (inl "s3cr3t") (Some "4.1.0", None).

Definition behind_run : list (effect string unit) :=
  (setup ++
   [asked;
    DidSetToken "https://fleet.example.com" "s3cr3t";
    DidVersion "https://fleet.example.com" (Some "4.1.0", None);
    Stderr (mismatch_warning "4.2.0" "4.1.0")])%list.

Definition test_run : list (effect string unit) :=
  [DidNewClient "https://127.0.0.1:8080" true "" "" [SetClientWriter tt];
   DidSetToken "https://127.0.0.1:8080" "AAAA"].

Definition secured : Context :=
  {| Address := "https://fleet.example.com";
     TLSSkipVerify := false;
     RootCA := "/etc/fleet/ca.pem";
     URLPrefix := "" |}.

(** Files are their paths, a pool is the file it was read from. *)
Definition rawDeps : RawDeps string string (tlsConfig string) string nat :=
  {| url_Parse := fun address => (Some address, None);
     ReadFile := fun path w => ((path, None), S w);
     AppendCertsFromPEM := fun certs => (certs, true);
     fleethttp_NewClient := fun cfg => cfg |}.

End cli_scenario.

(** * Properties *)

(** ** The library functions on the examples of their documentation *)

Example Clean_doc_1 : path.Clean "a//c" = "a/c". Proof. reflexivity. Qed.
Example Clean_doc_2 : path.Clean "/../a/b/../././/c" = "/a/c". Proof. reflexivity. Qed.
Example Clean_doc_3 : path.Clean "a/c/b/.." = "a/c". Proof. reflexivity. Qed.
Example Clean_doc_4 : path.Clean "" = ".". Proof. reflexivity. Qed.
Example Clean_doc_5 : path.Clean "../../x/./y/../z/" = "../../x/z". Proof. reflexivity. Qed.
Example Clean_doc_6 : path.Clean "abc/def/../../.." = "..". Proof. reflexivity. Qed.
Example Clean_doc_7 : path.Clean "/abc/def/../../.." = "/". Proof. reflexivity. Qed.
Example Clean_doc_8 : path.Clean "abc/def/../.." = ".". Proof. reflexivity. Qed.
Example Join_doc_1 : path.Join ["a"; "b"; "c"] = "a/b/c". Proof. reflexivity. Qed.
Example Join_doc_2 : path.Join ["a/b"; "../../../xyz"] = "../xyz". Proof. reflexivity. Qed.
Example Join_doc_3 : path.Join [""; ""] = "". Proof. reflexivity. Qed.
Example Join_doc_4 : path.Join ["a"; ""] = "a". Proof. reflexivity. Qed.
Example Join_doc_5 : path.Join [""; "a"] = "a". Proof. reflexivity. Qed.
Example Itoa_1 : strconv.Itoa 42 = "42". Proof. reflexivity. Qed.
Example Itoa_2 : strconv.Itoa 0 = "0". Proof. reflexivity. Qed.
Example Itoa_3 : strconv.Itoa (-7) = "-7". Proof. reflexivity. Qed.

(** ** Building the list of failing hosts *)
Section FillFacts.

Import webhooks.

Variable url : string.

Local Abbreviation mk := (fun h => makeFailingHost h url).

Lemma fill_step (hosts : list service.PolicySetHost) m k :
  (k + m = length hosts)%nat ->
  foldl (fun failingHosts i =>
           match hosts !! i with
           | Some h => <[i := makeFailingHost h url]> failingHosts
           | None => failingHosts
           end)
        (map mk (take k hosts) ++ replicate m zeroFailingHost)%list
        (seq k m)
  = map mk hosts.
Proof.
  revert k. induction m as [|m IH]; intros k Hlen.
  - cbn. rewrite app_nil_r, take_ge by lia. reflexivity.
  - cbn [seq foldl].
    destruct (lookup_lt_is_Some_2 hosts k) as [h Hh]; [lia|].
    rewrite Hh.
    replace (<[k := makeFailingHost h url]>
               (map mk (take k hosts) ++ replicate (S m) zeroFailingHost)%list)
      with (map mk (take (S k) hosts) ++ replicate m zeroFailingHost)%list.
    { apply IH. lia. }
    rewrite (take_S_r _ _ _ Hh), map_app, <- app_assoc. cbn.
    rewrite insert_app_r_alt; rewrite length_map, length_take; [|lia].
    replace (k - k `min` length hosts)%nat with 0%nat by lia.
    reflexivity.
Qed.

(** The slice filled index by index is the snapshot mapped through
    [makeFailingHost]. *)
Lemma fillFailingHosts_map hosts :
  fillFailingHosts hosts url = map mk hosts.
Proof.
  unfold fillFailingHosts.
  apply (fill_step hosts (length hosts) 0). lia.
Qed.

End FillFacts.

(** ** The shape of a trace *)
Section TraceFacts.

Import fleet webhooks.

Context {PolicyT TimeT : Type}.
Variables (appConfig : AppConfig) (now : TimeT).

Local Abbreviation Ev := (event PolicyT TimeT).

(** Every call of a cycle lies in the turn of some configured
    identifier, and that turn is in the trace whole. *)
Lemma cycle_events_lookup policyIDs (evs : list Ev) i ev :
  cycle_events appConfig now policyIDs evs ->
  evs !! i = Some ev ->
  exists policyID blk off k,
    policyID ∈ policyIDs
    /\ turn_events appConfig now policyID blk
    /\ i = (off + k)%nat
    /\ blk !! k = Some ev
    /\ forall j, (j < length blk)%nat -> evs !! (off + j)%nat = blk !! j.
Proof.
  intros Hcycle. revert i.
  induction Hcycle as [ids|policyID rest blk tr Hturn Hrest IH]; intros i Hi.
  - rewrite lookup_nil in Hi. discriminate.
  - destruct (decide (i < length blk)%nat) as [Hlt|Hge].
    + rewrite lookup_app_l in Hi by exact Hlt.
      exists policyID, blk, 0%nat, i. repeat split; try assumption.
      * apply list_elem_of_here.
      * intros j Hj. cbn. apply lookup_app_l. exact Hj.
    + rewrite lookup_app_r in Hi by lia.
      destruct (IH _ Hi) as (id' & blk' & off & k & Hin & Hturn' & Hik & Hk & Hblk).
      exists id', blk', (length blk + off)%nat, k. repeat split; try assumption.
      * apply list_elem_of_further. exact Hin.
      * lia.
      * intros j Hj. rewrite lookup_app_r by lia.
        rewrite <- (Hblk j Hj). f_equal. lia.
Qed.

(** A turn opens with its metadata lookup, so the posts of a trace
    that starts with a turn do not depend on what came before. *)
Lemma turn_delivered policyID (blk tr : list Ev) cur :
  turn_events appConfig now policyID blk ->
  delivered_from cur (blk ++ tr)
  = ((if existsb is_post blk then [policyID] else []) ++
     delivered_from (Some policyID) tr)%list.
Proof. intros Hturn. destruct Hturn; reflexivity. Qed.

Lemma turn_deliveries policyID (blk : list Ev) :
  turn_events appConfig now policyID blk ->
  (length (deliveries blk) <= 1)%nat.
Proof. intros Hturn. destruct Hturn; cbn; auto. Qed.

Lemma cycle_events_delivered policyIDs (evs : list Ev) :
  cycle_events appConfig now policyIDs evs ->
  forall cur,
    delivered_from cur evs `sublist_of` policyIDs
    /\ length (delivered_from cur evs) = length (deliveries evs).
Proof.
  induction 1 as [ids|policyID rest blk tr Hturn Hrest IH]; intros cur.
  - split; [apply sublist_nil_l|reflexivity].
  - rewrite (turn_delivered _ _ _ _ Hturn).
    destruct (IH (Some policyID)) as [Hsub Hlen].
    unfold deliveries in *. rewrite List.filter_app, !length_app, Hlen.
    destruct Hturn; cbn; split; auto using sublist_skip, sublist_cons.
Qed.

End TraceFacts.

(** ** The loop *)
Section CycleFacts.

Import fleet webhooks.

Context {PolicyT TimeT W : Type}.
Variable c : Collaborators PolicyT TimeT W.
Variables (appConfig : AppConfig) (now : TimeT).

Local Abbreviation dest := (destination appConfig).
Local Abbreviation payload := (payload_of appConfig now).
Local Abbreviation turn := (iteration c appConfig now).
Local Abbreviation loop := (range c appConfig now).

(** One turn of the loop, call by call. *)
Lemma iteration_eq policyID w tr :
  turn policyID (w, tr) =
  let '((policy, err), w1) := ds_Policy c policyID w in
  let tr1 := (tr ++ [EvPolicy policyID (policy, err)])%list in
  match err with
  | Some e =>
      if errors.Is_ErrNoRows e then (Next, (w1, tr1))
      else (Return (Some (ctxerr.Wrapf e
             "failing to load failing policies set %d" [ArgUint policyID])),
            (w1, tr1))
  | None =>
      let '((hosts, err), w2) := set_ListHosts c policyID w1 in
      let tr2 := (tr1 ++ [EvListHosts policyID (hosts, err)])%list in
      match err with
      | Some e =>
          (Return (Some (ctxerr.Wrapf e
             "listing hosts for failing policies set %d" [ArgUint policyID])),
           (w2, tr2))
      | None =>
          let '(err, w3) := PostJSONWithTimeout c dest (payload policy hosts) w2 in
          let tr3 := (tr2 ++ [EvPost dest (payload policy hosts) err])%list in
          match err with
          | Some e =>
              (Return (Some (ctxerr.Wrapf e "posting to '%s'" [ArgString dest])),
               (w3, tr3))
          | None =>
              let '(err, w4) := set_RemoveHosts c policyID hosts w3 in
              let tr4 := (tr3 ++ [EvRemoveHosts policyID hosts err])%list in
              match err with
              | Some e =>
                  (Return (Some (ctxerr.Wrapf e
                     "removing hosts %+v from failing policies set %d"
                     [ArgHosts hosts; ArgUint policyID])),
                   (w4, tr4))
              | None => (Next, (w4, tr4))
              end
          end
      end
  end.
Proof.
  unfold iteration, bind, call, ret, destination, payload_of.
  destruct (ds_Policy c policyID w) as [[policy [e|]] w1]; cbn.
  { destruct (errors.Is_ErrNoRows e); reflexivity. }
  destruct (set_ListHosts c policyID w1) as [[hosts [e|]] w2]; cbn; [reflexivity|].
  destruct (PostJSONWithTimeout c _ _ w2) as [[e|] w3]; cbn; [reflexivity|].
  destruct (set_RemoveHosts c policyID hosts w3) as [[e|] w4]; reflexivity.
Qed.

Lemma range_cons policyID rest st :
  loop (policyID :: rest) st =
  let '(f, st') := turn policyID st in
  match f with
  | Next => loop rest st'
  | Return err => (err, st')
  end.
Proof.
  cbn [range]. unfold bind, ret.
  destruct (turn policyID st) as [[|err] st']; reflexivity.
Qed.

(** A turn that makes the cycle return, returns an error. *)
Lemma iteration_return policyID st err st' :
  turn policyID st = (Return err, st') -> exists e, err = Some e.
Proof.
  destruct st as [w tr]. rewrite iteration_eq.
  destruct (ds_Policy c policyID w) as [[policy [e|]] w1]; cbn.
  { destruct (errors.Is_ErrNoRows e); intros [= <- <-]; eauto. }
  destruct (set_ListHosts c policyID w1) as [[hosts [e|]] w2]; cbn.
  { intros [= <- <-]; eauto. }
  destruct (PostJSONWithTimeout c _ _ w2) as [[e|] w3]; cbn.
  { intros [= <- <-]; eauto. }
  destruct (set_RemoveHosts c policyID hosts w3) as [[e|] w4]; cbn;
    intros [= <- <-]; eauto.
Qed.

(** When the turns for [pre] end without an error, the cycle goes on
    with what follows them. *)
Lemma range_app pre post st st' :
  loop pre st = (None, st') ->
  loop (pre ++ post)%list st = loop post st'.
Proof.
  revert st. induction pre as [|policyID pre IH]; intros st.
  - cbn. unfold ret. intros [= <-]. reflexivity.
  - cbn [app]. rewrite !range_cons.
    destruct (turn policyID st) as [[|err] st1] eqn:Hturn.
    + apply IH.
    + intros [= -> <-].
      apply iteration_return in Hturn as [e He]. discriminate.
Qed.

(** A failing turn, as the relation describes it, is what the code
    does: it returns an error whose cause is the error met. *)
Lemma iteration_fails_run policyID w tr stage e evs w' :
  iteration_fails c appConfig now policyID w stage e evs w' ->
  exists e',
    turn policyID (w, tr) = (Return (Some e'), (w', (tr ++ evs)%list))
    /\ errors.Unwrap e' = Some e.
Proof.
  intros Hfail. rewrite iteration_eq.
  destruct Hfail as [policy e w1 HP HIs
                    |policy hosts e w1 w2 HP HL
                    |policy hosts e w1 w2 w3 HP HL HD
                    |policy hosts e w1 w2 w3 w4 HP HL HD HR].
  - rewrite HP; cbn. rewrite HIs. eexists; split; reflexivity.
  - rewrite HP; cbn. rewrite HL; cbn.
    rewrite <- app_assoc. eexists; split; reflexivity.
  - rewrite HP; cbn. rewrite HL; cbn. rewrite HD; cbn.
    rewrite <- !app_assoc. eexists; split; reflexivity.
  - rewrite HP; cbn. rewrite HL; cbn. rewrite HD; cbn. rewrite HR; cbn.
    rewrite <- !app_assoc. eexists; split; reflexivity.
Qed.

(** The calls of a turn are appended to the trace, and have the
    shape of a turn. *)
Lemma iteration_events policyID w tr f w' tr' :
  turn policyID (w, tr) = (f, (w', tr')) ->
  exists evs, tr' = (tr ++ evs)%list /\ turn_events appConfig now policyID evs.
Proof.
  rewrite iteration_eq.
  destruct (ds_Policy c policyID w) as [[policy [e|]] w1]; cbn.
  { destruct (errors.Is_ErrNoRows e); intros [= <- <- <-];
      eexists; (split; [reflexivity|constructor]). }
  destruct (set_ListHosts c policyID w1) as [[hosts [e|]] w2]; cbn.
  { intros [= <- <- <-]. rewrite <- app_assoc.
    eexists; (split; [reflexivity|constructor]). }
  destruct (PostJSONWithTimeout c _ _ w2) as [[e|] w3]; cbn.
  { intros [= <- <- <-]. rewrite <- !app_assoc.
    eexists; (split; [reflexivity|constructor]). }
  destruct (set_RemoveHosts c policyID hosts w3) as [res w4]; cbn.
  destruct res; intros [= <- <- <-]; rewrite <- !app_assoc;
    eexists; (split; [reflexivity|constructor]).
Qed.

Lemma range_events policyIDs w tr r w' tr' :
  loop policyIDs (w, tr) = (r, (w', tr')) ->
  exists evs, tr' = (tr ++ evs)%list /\ cycle_events appConfig now policyIDs evs.
Proof.
  revert w tr. induction policyIDs as [|policyID rest IH]; intros w tr.
  - cbn. unfold ret. intros [= <- <- <-].
    exists []. split; [symmetry; apply app_nil_r|constructor].
  - rewrite range_cons.
    destruct (turn policyID (w, tr)) as [f [w1 tr1]] eqn:Hturn.
    apply iteration_events in Hturn as (evs & -> & Hevs).
    destruct f as [|err].
    + intros Hrest. apply IH in Hrest as (evs' & -> & Hevs').
      exists (evs ++ evs')%list. split; [symmetry; apply app_assoc|].
      constructor; assumption.
    + intros [= <- <- <-]. exists (evs ++ [])%list.
      split; [now rewrite app_nil_r|]. constructor; [assumption|constructor].
Qed.

Local Abbreviation enabled :=
  (Enable (FailingPoliciesWebhook (WebhookSettings appConfig))).
Local Abbreviation configured :=
  (PolicyIDs (FailingPoliciesWebhook (WebhookSettings appConfig))).
Local Abbreviation cycle := (TriggerFailingPoliciesWebhook c appConfig now).

Lemma trigger_enabled st : enabled = true -> cycle st = loop configured st.
Proof. unfold TriggerFailingPoliciesWebhook. intros ->. reflexivity. Qed.

Lemma trigger_events w r w' tr :
  cycle (w, []) = (r, (w', tr)) ->
  cycle_events appConfig now configured tr.
Proof.
  unfold TriggerFailingPoliciesWebhook.
  destruct enabled; cbn.
  - intros Hrun. apply range_events in Hrun as (evs & -> & Hevs). exact Hevs.
  - unfold ret. intros [= <- <- <-]. constructor.
Qed.

(** C5: with the webhook disabled the cycle returns [nil] at once; the
    world and the trace of calls are as they were, so no call was made
    to the policy catalog, to the failing-policy set or to the
    destination. *)
Theorem disabled_cycle_makes_no_call w tr :
  Enable (FailingPoliciesWebhook (WebhookSettings appConfig)) = false ->
  TriggerFailingPoliciesWebhook c appConfig now (w, tr) = (None, (w, tr)).
Proof.
  intros Hoff. unfold TriggerFailingPoliciesWebhook. rewrite Hoff. reflexivity.
Qed.

(** C6: when the cycle reaches an identifier whose metadata lookup
    fails with not-found, the turn for it consists of that lookup
    alone (no listHosts, no post, no removeHosts), it ends with the
    next identifier, and the cycle is the rest of the list run from
    there: the skip itself surfaces no error. *)
Theorem deleted_policy_is_skipped pre policyID post w0 w tr policy e w1 :
  Enable (FailingPoliciesWebhook (WebhookSettings appConfig)) = true ->
  PolicyIDs (FailingPoliciesWebhook (WebhookSettings appConfig)) = (pre ++ policyID :: post)%list ->
  range c appConfig now pre (w0, []) = (None, (w, tr)) ->
  ds_Policy c policyID w = ((policy, Some e), w1) ->
  errors.Is_ErrNoRows e = true ->
  iteration c appConfig now policyID (w, tr)
    = (Next, (w1, (tr ++ [EvPolicy policyID (policy, Some e)])%list))
  /\ TriggerFailingPoliciesWebhook c appConfig now (w0, [])
    = range c appConfig now post (w1, (tr ++ [EvPolicy policyID (policy, Some e)])%list).
Proof.
  intros Hon Hids Hpre HP HIs.
  assert (Hturn : turn policyID (w, tr)
            = (Next, (w1, (tr ++ [EvPolicy policyID (policy, Some e)])%list))).
  { rewrite iteration_eq, HP; cbn. rewrite HIs. reflexivity. }
  split; [exact Hturn|].
  rewrite trigger_enabled, Hids by exact Hon.
  rewrite (range_app _ _ _ _ Hpre), range_cons, Hturn. reflexivity.
Qed.

(** C3: when the turns before index [i] end without an error and the
    turn for the identifier at index [i] meets a fatal error [e] (at
    the metadata lookup, other than not-found; at listHosts; at the
    delivery; at removeHosts), the cycle returns an error whose cause
    is [e]; its trace ends with the calls of that turn up to the
    failed one, so nothing is done for a later identifier; and when
    the delivery failed, the turn made no removeHosts call. *)
Theorem fatal_error_aborts_cycle pre policyID post w0 w tr stage e evs w' :
  Enable (FailingPoliciesWebhook (WebhookSettings appConfig)) = true ->
  PolicyIDs (FailingPoliciesWebhook (WebhookSettings appConfig)) = (pre ++ policyID :: post)%list ->
  range c appConfig now pre (w0, []) = (None, (w, tr)) ->
  iteration_fails c appConfig now policyID w stage e evs w' ->
  exists e',
    TriggerFailingPoliciesWebhook c appConfig now (w0, []) = (Some e', (w', (tr ++ evs)%list))
    /\ errors.Unwrap e' = Some e
    /\ turn_events appConfig now policyID evs
    /\ (stage = AtDelivery -> Forall (fun ev => is_remove ev = false) evs).
Proof.
  intros Hon Hids Hpre Hfail.
  destruct (iteration_fails_run _ _ tr _ _ _ _ Hfail) as (e' & Hturn & Hcause).
  exists e'. split; [|split; [exact Hcause|split]].
  - rewrite trigger_enabled, Hids by exact Hon.
    rewrite (range_app _ _ _ _ Hpre), range_cons, Hturn. reflexivity.
  - inversion Hfail; subst; constructor.
  - intros ->. inversion Hfail; subst.
    repeat constructor.
Qed.

(** C4: in every run, a delivery that succeeded is the third call of
    a turn for a configured identifier: the call before it is the
    snapshot of that identifier, its payload is built from that
    snapshot, and the call after it is removeHosts for the same
    identifier with the very list the snapshot returned, so a host
    that joined the set after the snapshot is not in the list
    removed. *)
Theorem prune_is_exactly_the_snapshot w r w' tr i url p :
  TriggerFailingPoliciesWebhook c appConfig now (w, []) = (r, (w', tr)) ->
  tr !! i = Some (EvPost url p None) ->
  exists policyID policy hosts res off,
    policyID ∈ (PolicyIDs (FailingPoliciesWebhook (WebhookSettings appConfig)))
    /\ i = (off + 2)%nat
    /\ tr !! off = Some (EvPolicy policyID (policy, None))
    /\ tr !! (off + 1)%nat = Some (EvListHosts policyID (hosts, None))
    /\ p = payload_of appConfig now policy hosts
    /\ tr !! (off + 3)%nat = Some (EvRemoveHosts policyID hosts res).
Proof.
  intros Hrun Hi. apply trigger_events in Hrun.
  destruct (cycle_events_lookup _ _ _ _ _ _ Hrun Hi)
    as (policyID & blk & off & k & Hin & Hturn & -> & Hk & Hblk).
  destruct Hturn as [policy e|policy hosts e|policy hosts e|policy hosts res];
    destruct k as [|[|[|[|k]]]]; cbn in Hk; try discriminate.
  injection Hk as <- <-.
  exists policyID, policy, hosts, res, off.
  split; [exact Hin|]. split; [reflexivity|].
  pose proof (Hblk 0%nat) as H0. pose proof (Hblk 1%nat) as H1.
  pose proof (Hblk 3%nat) as H3. cbn in H0, H1, H3.
  rewrite Nat.add_0_r in H0.
  repeat split; auto with lia.
Qed.

(** C10: in every run, a snapshot that listHosts returned is followed
    by the post of a payload whose host list has the length of the
    snapshot and, at each index, the identifier and the hostname of
    the snapshot's entry at that index; the URL is the derived one. *)
Theorem payload_hosts_follow_snapshot w r w' tr i policyID hosts :
  TriggerFailingPoliciesWebhook c appConfig now (w, []) = (r, (w', tr)) ->
  tr !! i = Some (EvListHosts policyID (hosts, None)) ->
  exists url p res,
    tr !! (i + 1)%nat = Some (EvPost url p res)
    /\ length (FailingHosts p) = length hosts
    /\ forall j h,
         hosts !! j = Some h ->
         exists fh,
           FailingHosts p !! j = Some fh
           /\ ID fh = service.ID h
           /\ Hostname fh = service.Hostname h
           /\ URL fh = path.Join [ServerURL (ServerSettings appConfig); "hosts";
                                  strconv.Itoa (int_of_uint (service.ID h))].
Proof.
  intros Hrun Hi. apply trigger_events in Hrun.
  destruct (cycle_events_lookup _ _ _ _ _ _ Hrun Hi)
    as (id' & blk & off & k & Hin & Hturn & -> & Hk & Hblk).
  assert (Hfill : forall policy : option PolicyT,
    length (FailingHosts (payload policy hosts)) = length hosts
    /\ forall j h,
         hosts !! j = Some h ->
         exists fh,
           FailingHosts (payload policy hosts) !! j = Some fh
           /\ ID fh = service.ID h
           /\ Hostname fh = service.Hostname h
           /\ URL fh = path.Join [ServerURL (ServerSettings appConfig); "hosts";
                                  strconv.Itoa (int_of_uint (service.ID h))]).
  { intros policy. unfold payload_of. cbn.
    rewrite fillFailingHosts_map. split; [apply length_map|].
    intros j h Hj. eexists. rewrite list_lookup_fmap, Hj. cbn.
    repeat split. }
  destruct Hturn as [policy e|policy hosts' e|policy hosts' e|policy hosts' res];
    destruct k as [|[|[|[|k]]]]; cbn in Hk; try discriminate;
    injection Hk as <- <-.
  - pose proof (Hblk 2%nat) as H2. cbn in H2.
    do 3 eexists. split; [|apply Hfill].
    replace (off + 1 + 1)%nat with (off + 2)%nat by lia. auto with lia.
  - pose proof (Hblk 2%nat) as H2. cbn in H2.
    do 3 eexists. split; [|apply Hfill].
    replace (off + 1 + 1)%nat with (off + 2)%nat by lia. auto with lia.
Qed.

(** C9: in every run, a posted payload carries the time of the
    invocation and the policy record the metadata lookup of its turn
    returned, and is encoded as an object with the members
    [timestamp], [policy] and [hosts], in this order and no other;
    [hosts] is the array of the failing hosts in their order, each an
    object with the members [id], [hostname] and [url]. *)
Theorem payload_wire_shape (time_json : TimeT -> json.value)
    (policy_json : PolicyT -> json.value) w r w' tr i url p res :
  TriggerFailingPoliciesWebhook c appConfig now (w, []) = (r, (w', tr)) ->
  tr !! i = Some (EvPost url p res) ->
  Timestamp p = now
  /\ (exists policyID off,
        i = (off + 2)%nat
        /\ tr !! off = Some (EvPolicy policyID (Policy p, None)))
  /\ Marshal time_json policy_json p
     = json.Object
         [("timestamp", time_json now);
          ("policy", match Policy p with
                     | None => json.Null
                     | Some pol => policy_json pol
                     end);
          ("hosts", json.Array (map FailingHost_json (FailingHosts p)))]
  /\ json.keys (Marshal time_json policy_json p) = ["timestamp"; "policy"; "hosts"]
  /\ Forall (fun fh =>
               FailingHost_json fh
               = json.Object [("id", json.Number (ID fh));
                              ("hostname", json.String (Hostname fh));
                              ("url", json.String (URL fh))])
            (FailingHosts p).
Proof.
  intros Hrun Hi. apply trigger_events in Hrun.
  destruct (cycle_events_lookup _ _ _ _ _ _ Hrun Hi)
    as (policyID & blk & off & k & Hin & Hturn & -> & Hk & Hblk).
  assert (Hp : exists policy hosts,
             p = payload policy hosts
             /\ k = 2%nat
             /\ tr !! off = Some (EvPolicy policyID (policy, None))).
  { destruct Hturn as [policy e|policy hosts e|policy hosts e|policy hosts res'];
      destruct k as [|[|[|[|k]]]]; cbn in Hk; try discriminate;
      injection Hk as <- <- <-; exists policy, hosts;
      pose proof (Hblk 0%nat) as H0; cbn in H0; rewrite Nat.add_0_r in H0;
      auto with lia. }
  destruct Hp as (policy & hosts & -> & -> & Hoff).
  split; [reflexivity|]. split; [exists policyID, off; auto|].
  split; [reflexivity|]. split; [reflexivity|].
  apply Forall_forall. intros fh _. reflexivity.
Qed.

(** C8, as the code has it: in every run the identifiers delivery was
    attempted for, in the order of the attempts, are a subsequence of
    the configured list: the attempts follow the order of the list and
    there is at most one for each entry of it.  Every post of the
    trace is counted.  When no identifier is configured twice, no
    policy gets two attempts. *)
Theorem deliveries_follow_configured_order w r w' tr :
  TriggerFailingPoliciesWebhook c appConfig now (w, []) = (r, (w', tr)) ->
  delivered_for tr `sublist_of` (PolicyIDs (FailingPoliciesWebhook (WebhookSettings appConfig)))
  /\ length (delivered_for tr) = length (deliveries tr)
  /\ (NoDup (PolicyIDs (FailingPoliciesWebhook (WebhookSettings appConfig))) ->
      NoDup (delivered_for tr)).
Proof.
  intros Hrun. apply trigger_events in Hrun.
  destruct (cycle_events_delivered _ _ _ _ Hrun None) as [Hsub Hlen].
  repeat split; try assumption.
  intros Hnodup. eapply sublist_NoDup; eassumption.
Qed.

(** C1, as the code has it: for an identifier whose policy exists and
    whose snapshot is empty, the turn still posts, a payload of zero
    hosts; a failed post ends the cycle with its error; after a
    successful one removeHosts is called with the empty list, and when
    that succeeds the cycle goes on with the next identifier. *)
Theorem empty_snapshot_is_delivered policyID rest w tr policy w1 w2 r w3 r' w4 :
  ds_Policy c policyID w = ((policy, None), w1) ->
  set_ListHosts c policyID w1 = (([], None), w2) ->
  PostJSONWithTimeout c (destination appConfig) (payload_of appConfig now policy []) w2 = (r, w3) ->
  set_RemoveHosts c policyID [] w3 = (r', w4) ->
  FailingHosts (payload_of appConfig now policy []) = []
  /\ range c appConfig now (policyID :: rest) (w, tr) =
     let posted := (tr ++ [EvPolicy policyID (policy, None);
                           EvListHosts policyID ([], None);
                           EvPost (destination appConfig)
                             (payload_of appConfig now policy []) r])%list in
     match r with
     | Some e =>
         (Some (ctxerr.Wrapf e "posting to '%s'" [ArgString (destination appConfig)]), (w3, posted))
     | None =>
         let pruned := (posted ++ [EvRemoveHosts policyID [] r'])%list in
         match r' with
         | Some e =>
             (Some (ctxerr.Wrapf e
                "removing hosts %+v from failing policies set %d"
                [ArgHosts []; ArgUint policyID]), (w4, pruned))
         | None => range c appConfig now rest (w4, pruned)
         end
     end.
Proof.
  intros HP HL HD HR. split; [reflexivity|].
  rewrite range_cons, iteration_eq, HP; cbn.
  rewrite HL; cbn. rewrite HD; cbn. rewrite <- !app_assoc; cbn.
  destruct r as [e|]; [reflexivity|].
  rewrite HR; cbn. rewrite <- !app_assoc; cbn.
  destruct r' as [e|]; reflexivity.
Qed.

End CycleFacts.

(** ** The in-memory failing-policy set *)
Section StoreFacts.

Import memstore.

Implicit Types s : gmap Z (list service.PolicySetHost).

Lemma removeHosts_nil policyID s : removeHosts policyID [] s = s.
Proof.
  unfold removeHosts. destruct (s !! policyID) as [members|] eqn:Hm; [|reflexivity].
  cbn. replace (List.filter (fun _ => true) members) with members.
  - apply insert_id. exact Hm.
  - clear Hm. induction members as [|h members IH]; cbn; congruence.
Qed.

Lemma has_host_member h hosts : In h hosts -> has_host (service.ID h) hosts = true.
Proof.
  intros Hin. unfold has_host. apply existsb_exists.
  exists h. split; [exact Hin|apply Z.eqb_refl].
Qed.

Lemma filter_members_out (members hosts : list service.PolicySetHost) :
  (forall h, In h members -> In h hosts) ->
  List.filter (fun h => negb (has_host (service.ID h) hosts)) members = [].
Proof.
  induction members as [|h members IH]; intros Hsub; [reflexivity|].
  cbn. rewrite has_host_member by (apply Hsub; left; reflexivity).
  cbn. apply IH. intros h' Hh'. apply Hsub. right. exact Hh'.
Qed.

(** Removing the snapshot of a policy empties its set. *)
Lemma listHosts_removeHosts_snapshot policyID s :
  listHosts policyID (removeHosts policyID (listHosts policyID s) s) = [].
Proof.
  unfold removeHosts, listHosts at 2.
  destruct (s !! policyID) as [members|] eqn:Hm; cbn.
  - unfold listHosts. rewrite lookup_insert_eq. cbn.
    apply filter_members_out. auto.
  - unfold listHosts. rewrite Hm. reflexivity.
Qed.

(** Removal never fills a set. *)
Lemma listHosts_removeHosts_empty policyID hosts j s :
  listHosts j s = [] -> listHosts j (removeHosts policyID hosts s) = [].
Proof.
  unfold removeHosts, listHosts. intros Hj.
  destruct (s !! policyID) as [members|] eqn:Hm; [|exact Hj].
  destruct (decide (policyID = j)) as [->|Hne].
  - rewrite lookup_insert_eq. rewrite Hm in Hj. cbn in *. subst members. reflexivity.
  - rewrite lookup_insert_ne by exact Hne. exact Hj.
Qed.

Lemma has_host_cons hostID h hosts :
  has_host hostID (h :: hosts) = (service.ID h =? hostID) || has_host hostID hosts.
Proof. reflexivity. Qed.

Lemma has_host_filter hostID members snapshot :
  has_host hostID snapshot = false ->
  has_host hostID
    (List.filter (fun h => negb (has_host (service.ID h) snapshot)) members)
  = has_host hostID members.
Proof.
  intros Hnew. induction members as [|h members IH]; [reflexivity|].
  cbn [List.filter]. rewrite has_host_cons.
  destruct (has_host (service.ID h) snapshot) eqn:Hh; cbn [negb].
  - rewrite IH. destruct (Z.eqb_spec (service.ID h) hostID) as [Heq|Hne].
    + rewrite Heq in Hh. congruence.
    + reflexivity.
  - rewrite has_host_cons, IH. reflexivity.
Qed.

Lemma has_host_app hostID l1 l2 :
  has_host hostID (l1 ++ l2) = has_host hostID l1 || has_host hostID l2.
Proof. unfold has_host. apply existsb_app. Qed.

(** A host that joins the set after the snapshot survives the removal
    of the snapshot. *)
Lemma removeHosts_keeps_newcomer policyID snapshot h s :
  has_host (service.ID h) snapshot = false ->
  has_host (service.ID h)
    (listHosts policyID (removeHosts policyID snapshot (addHost policyID h s)))
  = true.
Proof.
  intros Hnew. unfold addHost.
  destruct (has_host (service.ID h) (listHosts policyID s)) eqn:Hold.
  - unfold removeHosts, listHosts in *.
    destruct (s !! policyID) as [members|] eqn:Hm; [|cbn in Hold; discriminate].
    rewrite lookup_insert_eq.
    change (has_host (service.ID h)
              (List.filter (fun h => negb (has_host (service.ID h) snapshot)) members)
            = true).
    rewrite has_host_filter by exact Hnew. exact Hold.
  - unfold removeHosts. rewrite lookup_insert_eq.
    unfold listHosts at 1. rewrite lookup_insert_eq.
    change (has_host (service.ID h)
              (List.filter (fun h => negb (has_host (service.ID h) snapshot))
                 (listHosts policyID s ++ [h]))
            = true).
    rewrite has_host_filter by exact Hnew.
    rewrite has_host_app, has_host_cons, Z.eqb_refl. apply orb_true_r.
Qed.

End StoreFacts.

(** ** Two runs in a row over the in-memory set *)
Section TwoRuns.

Import fleet webhooks memstore.

Context {PolicyT TimeT : Type}.
Variable lookup : uint -> option PolicyT * option error.
Variable deliver : string -> FailingPoliciesPayload PolicyT TimeT -> option error.
Variables (appConfig : AppConfig) (now : TimeT).

(** No host joins a set while the cycle runs. *)
Local Abbreviation c := (collaborators lookup deliver (fun s => s)).
Local Abbreviation loop := (range c appConfig now).
Local Abbreviation hit := (found lookup).

Implicit Types s : gmap Z (list service.PolicySetHost).

Lemma deliveries_app (tr evs : list (event PolicyT TimeT)) :
  deliveries (tr ++ evs) = (deliveries tr ++ deliveries evs)%list.
Proof. apply List.filter_app. Qed.

Lemma found_true policyID policy :
  lookup policyID = (policy, None) ->
  hit policyID = true /\ deleted lookup policyID = false.
Proof. unfold found, deleted. intros ->. split; reflexivity. Qed.

Lemma found_false policyID policy e :
  lookup policyID = (policy, Some e) ->
  hit policyID = false /\ deleted lookup policyID = errors.Is_ErrNoRows e.
Proof. unfold found, deleted. intros ->. split; reflexivity. Qed.

Ltac run_turn :=
  rewrite range_cons, iteration_eq;
  cbn [ds_Policy set_ListHosts set_RemoveHosts PostJSONWithTimeout collaborators].

Ltac count_posts H :=
  rewrite ?deliveries_app, ?length_app in H;
  cbn [deliveries List.filter is_post length] in H.

(** A run that ends without an error leaves the set of every
    configured policy it found empty, found or skipped every
    identifier, and posted once for each one it found. *)
Lemma first_run policyIDs : forall s tr s1 tr1,
  loop policyIDs (s, tr) = (None, (s1, tr1)) ->
  (forall j, listHosts j s = [] -> listHosts j s1 = [])
  /\ (forall policyID, policyID ∈ policyIDs -> hit policyID = true ->
        listHosts policyID s1 = [])
  /\ (forall policyID, policyID ∈ policyIDs ->
        hit policyID = true \/ deleted lookup policyID = true)
  /\ length (deliveries tr1)
     = (length (deliveries tr) + length (List.filter hit policyIDs))%nat.
Proof.
  induction policyIDs as [|policyID rest IH]; intros s tr s1 tr1.
  - cbn. unfold ret. intros [= <- <-].
    repeat split; auto; intros ? Hin; inversion Hin.
  - run_turn. cbn [List.filter].
    destruct (lookup policyID) as [policy [e|]] eqn:Hlook.
    + destruct (found_false _ _ _ Hlook) as [Hmiss Hdel]. rewrite Hmiss.
      destruct (errors.Is_ErrNoRows e) eqn:HIs; [|discriminate].
      intros Hrest. apply IH in Hrest as (Hkeep & Hdrain & Hall & Hcount).
      count_posts Hcount.
      repeat split; auto.
      * intros id Hin Hhit. apply elem_of_cons in Hin as [->|Hin]; [|auto].
        congruence.
      * intros id Hin. apply elem_of_cons in Hin as [->|Hin]; auto.
      * lia.
    + destruct (found_true _ _ Hlook) as [Hhit _]. rewrite Hhit.
      cbn match. destruct (deliver _ _) as [e|]; [discriminate|].
      intros Hrest. apply IH in Hrest as (Hkeep & Hdrain & Hall & Hcount).
      count_posts Hcount.
      repeat split.
      * intros j Hj. apply Hkeep, listHosts_removeHosts_empty, Hj.
      * intros id Hin Hid. apply elem_of_cons in Hin as [->|Hin]; [|auto].
        apply Hkeep, listHosts_removeHosts_snapshot.
      * intros id Hin. apply elem_of_cons in Hin as [->|Hin]; auto.
      * cbn [length]. lia.
Qed.

(** Run again from such a set: every snapshot is empty, every post
    carries zero hosts, every removal removes nothing and the set is
    as it was; there is still a post for each policy found, until one
    fails. *)
Lemma second_run policyIDs : forall s tr r s2 tr2,
  (forall policyID, policyID ∈ policyIDs -> hit policyID = true ->
     listHosts policyID s = []) ->
  (forall policyID, policyID ∈ policyIDs ->
     hit policyID = true \/ deleted lookup policyID = true) ->
  loop policyIDs (s, tr) = (r, (s2, tr2)) ->
  s2 = s
  /\ exists evs,
       tr2 = (tr ++ evs)%list
       /\ Forall carries_no_host evs
       /\ (r = None ->
           length (deliveries evs) = length (List.filter hit policyIDs))
       /\ (1 <= length (List.filter hit policyIDs) ->
           1 <= length (deliveries evs))%nat.
Proof.
  induction policyIDs as [|policyID rest IH]; intros s tr r s2 tr2 Hdrain Hall.
  - cbn. unfold ret. intros [= <- <- <-]. split; [reflexivity|].
    exists []. rewrite app_nil_r. repeat split; auto.
  - assert (Hdrain' : forall id, id ∈ rest -> hit id = true -> listHosts id s = []).
    { intros id Hin. apply Hdrain, list_elem_of_further, Hin. }
    assert (Hall' : forall id, id ∈ rest ->
              hit id = true \/ deleted lookup id = true).
    { intros id Hin. apply Hall, list_elem_of_further, Hin. }
    specialize (Hdrain policyID (list_elem_of_here _ _)).
    specialize (Hall policyID (list_elem_of_here _ _)).
    run_turn. cbn [List.filter].
    destruct (lookup policyID) as [policy [e|]] eqn:Hlook.
    + destruct (found_false _ _ _ Hlook) as [Hmiss Hdel]. rewrite Hmiss.
      destruct Hall as [Hall|Hall]; [congruence|].
      rewrite Hdel in Hall. rewrite Hall.
      intros Hrest.
      destruct (IH _ _ _ _ _ Hdrain' Hall' Hrest)
        as (-> & evs & -> & Hnone & Hcount & Hsome).
      split; [reflexivity|]. eexists. split; [symmetry; apply app_assoc|].
      split; [constructor; [exact I|exact Hnone]|].
      cbn [app]. unfold deliveries in *. cbn [List.filter is_post]. auto.
    + destruct (found_true _ _ Hlook) as [Hhit _]. rewrite Hhit.
      rewrite (Hdrain Hhit), removeHosts_nil. cbn match.
      destruct (deliver _ _) as [e|] eqn:Hpost.
      * intros [= <- <- <-]. split; [reflexivity|].
        eexists. split; [rewrite <- !app_assoc; reflexivity|].
        split; [repeat constructor|]. split; [discriminate|].
        intros _. cbn. lia.
      * intros Hrest.
        destruct (IH _ _ _ _ _ Hdrain' Hall' Hrest)
          as (-> & evs & -> & Hnone & Hcount & Hsome).
        split; [reflexivity|].
        eexists. split; [rewrite <- !app_assoc; reflexivity|].
        split; [repeat constructor; exact Hnone|].
        cbn [app]. unfold deliveries in *. cbn [List.filter is_post length].
        split; [intros Hr; rewrite (Hcount Hr); reflexivity|lia].
Qed.

Local Abbreviation cycle := (TriggerFailingPoliciesWebhook c appConfig now).

(** C7, as the code has it: after a run that ended without an error,
    and with no host added since, a second run finds every snapshot
    empty, removes nothing and leaves the set as it was; but it still
    posts, a payload of zero hosts, for each configured identifier
    whose policy exists: as many posts as the first run when it ends
    without an error, and at least one when the first run made one. *)
Theorem second_run_repeats_deliveries s s1 tr1 r2 s2 tr2 :
  TriggerFailingPoliciesWebhook (collaborators lookup deliver (fun s => s))
    appConfig now (s, []) = (None, (s1, tr1)) ->
  TriggerFailingPoliciesWebhook (collaborators lookup deliver (fun s => s))
    appConfig now (s1, []) = (r2, (s2, tr2)) ->
  s2 = s1
  /\ Forall carries_no_host tr2
  /\ (r2 = None -> length (deliveries tr2) = length (deliveries tr1))
  /\ (1 <= length (deliveries tr1) -> 1 <= length (deliveries tr2))%nat.
Proof.
  unfold TriggerFailingPoliciesWebhook.
  destruct (Enable (FailingPoliciesWebhook (WebhookSettings appConfig))); cbn.
  - intros Hfirst Hsecond.
    apply first_run in Hfirst as (_ & Hdrain & Hall & Hcount).
    destruct (second_run _ _ _ _ _ _ Hdrain Hall Hsecond)
      as (-> & evs & -> & Hnone & Hsame & Hsome).
    cbn in *. rewrite Hcount. auto.
  - unfold ret. intros [= <- <-] [= <- <- <-]. repeat split; auto.
Qed.

End TwoRuns.

(** ** The cycle on concrete worlds *)
Section Runs.

Import fleet webhooks memstore scenario.

Local Abbreviation trigger c ids := (TriggerFailingPoliciesWebhook c (config ids true) now).

(** The end-to-end scenario of the specification: both hosts are
    delivered, and the set of policy 7 is empty afterwards. *)
Example run_delivers :
  trigger steady [7] (failing7, []) = (None, (drained7, turn7 [alice; bob]))
  /\ listHosts 7 drained7 = [].
Proof. split; vm_compute; reflexivity. Qed.

(** The same with a destination that times out: the cycle fails and
    the set of policy 7 is as it was. *)
Example run_outage :
  trigger outage [7] (failing7, [])
  = (Some (wrapError "posting to '%s'" [ArgString hook]
             (errorString "context deadline exceeded")),
     (failing7,
      [EvPolicy 7 (Some disk_encryption, None);
       EvListHosts 7 ([alice; bob], None);
       EvPost hook (payload7 [alice; bob])
         (Some (errorString "context deadline exceeded"))])).
Proof. vm_compute. reflexivity. Qed.

(** C2 on the code: for the base address [https://fleet.example.com]
    and the host 42, [makeFailingHost] gives a URL with a single slash
    after the scheme, [path.Join] having cleaned the double one; it is
    not the base address followed by [/hosts/42]. *)
Theorem makeFailingHost_url_loses_slash :
  URL (makeFailingHost (service.mkPolicySetHost 42 "alice-laptop")
         "https://fleet.example.com")
  = "https:/fleet.example.com/hosts/42"
  /\ URL (makeFailingHost (service.mkPolicySetHost 42 "alice-laptop")
            "https://fleet.example.com")
     <> "https://fleet.example.com" ++ "/hosts/" ++ "42".
Proof. split; [vm_compute; reflexivity|vm_compute; discriminate]. Qed.

(** A host identifier above the signed range is printed as the
    negative number of the same bits. *)
Example makeFailingHost_url_wraps :
  URL (makeFailingHost (service.mkPolicySetHost (2 ^ 64 - 1) "last") "/fleet")
  = "/fleet/hosts/-1".
Proof. vm_compute. reflexivity. Qed.

(** A base address without a double slash is kept. *)
Example makeFailingHost_url_plain :
  URL (makeFailingHost (service.mkPolicySetHost 42 "alice-laptop") "/fleet")
  = "/fleet/hosts/42".
Proof. vm_compute. reflexivity. Qed.

(** C1 refuted: policy 7 exists and its set is empty; the cycle still
    posts, a payload without hosts, and calls removeHosts. *)
Lemma empty_snapshot_posts_anyway :
  TriggerFailingPoliciesWebhook steady (config [7] true) now (∅, [])
  = (None,
     (∅,
      [EvPolicy 7 (Some disk_encryption, None);
       EvListHosts 7 ([], None);
       EvPost "https://hooks.example.com/failing"
         {| Timestamp := now; Policy := Some disk_encryption; FailingHosts := [] |}
         None;
       EvRemoveHosts 7 [] None])).
Proof. vm_compute. reflexivity. Qed.

(** C7 refuted: a first run that delivers and ends without an error,
    then a second run from the set it left: the second run posts
    again, and the two runs make two delivery attempts. *)
Lemma two_runs_two_deliveries :
  TriggerFailingPoliciesWebhook steady (config [7] true) now (failing7, [])
  = (None, (drained7, turn7 [alice; bob]))
  /\ TriggerFailingPoliciesWebhook steady (config [7] true) now (drained7, [])
     = (None,
        (drained7,
         [EvPolicy 7 (Some disk_encryption, None);
          EvListHosts 7 ([], None);
          EvPost "https://hooks.example.com/failing"
            {| Timestamp := now; Policy := Some disk_encryption; FailingHosts := [] |}
            None;
          EvRemoveHosts 7 [] None]))
  /\ (length (deliveries (turn7 [alice; bob]))
      + length (deliveries (turn7 [])) = 2)%nat.
Proof. repeat split; vm_compute; reflexivity. Qed.

(** C8 refuted: policy 7 is configured twice and carol starts failing
    it during the first delivery; one invocation makes two delivery
    attempts for policy 7, each with hosts to report. *)
Lemma repeated_identifier_two_deliveries :
  TriggerFailingPoliciesWebhook busy (config [7; 7] true) now (failing7, [])
  = (None, (drained7, (turn7 [alice; bob] ++ turn7 [carol])%list))
  /\ delivered_for (turn7 [alice; bob] ++ turn7 [carol])%list = [7; 7]
  /\ deliveries (turn7 [alice; bob] ++ turn7 [carol])%list
     = [EvPost hook (payload7 [alice; bob]) None;
        EvPost hook (payload7 [carol]) None].
Proof. repeat split; vm_compute; reflexivity. Qed.

(** *** The theorems at work *)

Lemma disabled_cycle_makes_no_call_witness :
  Enable (FailingPoliciesWebhook (WebhookSettings (config [7] false))) = false
  /\ TriggerFailingPoliciesWebhook steady (config [7] false) now (failing7, [])
     = (None, (failing7, [])).
Proof.
  assert (H1 : Enable (FailingPoliciesWebhook (WebhookSettings (config [7] false)))
               = false) by reflexivity.
  exact (conj H1
    (disabled_cycle_makes_no_call steady (config [7] false) now failing7 [] H1)).
Defined.

Lemma deleted_policy_is_skipped_witness :
  Enable (FailingPoliciesWebhook (WebhookSettings (config [7; 5; 7] true))) = true
  /\ PolicyIDs (FailingPoliciesWebhook (WebhookSettings (config [7; 5; 7] true)))
     = ([7] ++ 5 :: [7])%list
  /\ range steady (config [7; 5; 7] true) now [7] (failing7, [])
     = (None, (drained7, turn7 [alice; bob]))
  /\ ds_Policy steady 5 drained7 = ((None, Some sql_ErrNoRows), drained7)
  /\ errors.Is_ErrNoRows sql_ErrNoRows = true
  /\ iteration steady (config [7; 5; 7] true) now 5 (drained7, turn7 [alice; bob])
     = (Next, (drained7,
               (turn7 [alice; bob] ++ [EvPolicy 5 (None, Some sql_ErrNoRows)])%list))
  /\ trigger steady [7; 5; 7] (failing7, [])
     = range steady (config [7; 5; 7] true) now [7]
         (drained7,
          (turn7 [alice; bob] ++ [EvPolicy 5 (None, Some sql_ErrNoRows)])%list).
Proof.
  assert (H1 : Enable (FailingPoliciesWebhook (WebhookSettings (config [7; 5; 7] true)))
               = true) by reflexivity.
  assert (H2 : PolicyIDs (FailingPoliciesWebhook (WebhookSettings (config [7; 5; 7] true)))
               = ([7] ++ 5 :: [7])%list) by reflexivity.
  assert (H3 : range steady (config [7; 5; 7] true) now [7] (failing7, [])
               = (None, (drained7, turn7 [alice; bob])))
    by (vm_compute; reflexivity).
  assert (H4 : ds_Policy steady 5 drained7 = ((None, Some sql_ErrNoRows), drained7))
    by reflexivity.
  assert (H5 : errors.Is_ErrNoRows sql_ErrNoRows = true) by reflexivity.
  exact (conj H1 (conj H2 (conj H3 (conj H4 (conj H5
    (deleted_policy_is_skipped steady (config [7; 5; 7] true) now [7] 5 [7]
       failing7 drained7 (turn7 [alice; bob]) None sql_ErrNoRows drained7
       H1 H2 H3 H4 H5)))))).
Defined.

Lemma fatal_error_aborts_cycle_witness :
  Enable (FailingPoliciesWebhook (WebhookSettings (config [5; 7; 3] true))) = true
  /\ PolicyIDs (FailingPoliciesWebhook (WebhookSettings (config [5; 7; 3] true)))
     = ([5] ++ 7 :: [3])%list
  /\ range outage (config [5; 7; 3] true) now [5] (failing7, [])
     = (None, (failing7, [EvPolicy 5 (None, Some sql_ErrNoRows)]))
  /\ iteration_fails outage (config [5; 7; 3] true) now 7 failing7 AtDelivery deadline
       [EvPolicy 7 (Some disk_encryption, None);
        EvListHosts 7 ([alice; bob], None);
        EvPost hook (payload7 [alice; bob]) (Some deadline)] failing7
  /\ exists e',
       trigger outage [5; 7; 3] (failing7, [])
       = (Some e',
          (failing7,
           ([EvPolicy 5 (None, Some sql_ErrNoRows)] ++
            [EvPolicy 7 (Some disk_encryption, None);
             EvListHosts 7 ([alice; bob], None);
             EvPost hook (payload7 [alice; bob]) (Some deadline)])%list))
       /\ errors.Unwrap e' = Some deadline
       /\ turn_events (config [5; 7; 3] true) now 7
            [EvPolicy 7 (Some disk_encryption, None);
             EvListHosts 7 ([alice; bob], None);
             EvPost hook (payload7 [alice; bob]) (Some deadline)]
       /\ (AtDelivery = AtDelivery ->
           Forall (fun ev => is_remove ev = false)
             [EvPolicy 7 (Some disk_encryption, None);
              EvListHosts 7 ([alice; bob], None);
              EvPost hook (payload7 [alice; bob]) (Some deadline)]).
Proof.
  assert (H1 : Enable (FailingPoliciesWebhook (WebhookSettings (config [5; 7; 3] true)))
               = true) by reflexivity.
  assert (H2 : PolicyIDs (FailingPoliciesWebhook (WebhookSettings (config [5; 7; 3] true)))
               = ([5] ++ 7 :: [3])%list) by reflexivity.
  assert (H3 : range outage (config [5; 7; 3] true) now [5] (failing7, [])
               = (None, (failing7, [EvPolicy 5 (None, Some sql_ErrNoRows)])))
    by (vm_compute; reflexivity).
  assert (H4 : iteration_fails outage (config [5; 7; 3] true) now 7 failing7
                 AtDelivery deadline
                 [EvPolicy 7 (Some disk_encryption, None);
                  EvListHosts 7 ([alice; bob], None);
                  EvPost hook (payload7 [alice; bob]) (Some deadline)] failing7).
  { apply (fails_at_delivery outage (config [5; 7; 3] true) now 7 failing7
             (Some disk_encryption) [alice; bob] deadline failing7 failing7 failing7);
      reflexivity. }
  exact (conj H1 (conj H2 (conj H3 (conj H4
    (fatal_error_aborts_cycle outage (config [5; 7; 3] true) now [5] 7 [3]
       failing7 failing7 [EvPolicy 5 (None, Some sql_ErrNoRows)] AtDelivery deadline
       _ failing7 H1 H2 H3 H4))))).
Defined.

Lemma prune_is_exactly_the_snapshot_witness :
  trigger steady [7] (failing7, []) = (None, (drained7, turn7 [alice; bob]))
  /\ turn7 [alice; bob] !! 2%nat = Some (EvPost hook (payload7 [alice; bob]) None)
  /\ exists policyID policy hosts res off,
       policyID ∈ PolicyIDs (FailingPoliciesWebhook (WebhookSettings (config [7] true)))
       /\ 2%nat = (off + 2)%nat
       /\ turn7 [alice; bob] !! off = Some (EvPolicy policyID (policy, None))
       /\ turn7 [alice; bob] !! (off + 1)%nat
          = Some (EvListHosts policyID (hosts, None))
       /\ payload7 [alice; bob] = payload_of (config [7] true) now policy hosts
       /\ turn7 [alice; bob] !! (off + 3)%nat
          = Some (EvRemoveHosts policyID hosts res).
Proof.
  assert (H1 : trigger steady [7] (failing7, [])
               = (None, (drained7, turn7 [alice; bob])))
    by (vm_compute; reflexivity).
  assert (H2 : turn7 [alice; bob] !! 2%nat
               = Some (EvPost hook (payload7 [alice; bob]) None)) by reflexivity.
  exact (conj H1 (conj H2
    (prune_is_exactly_the_snapshot steady (config [7] true) now failing7 None
       drained7 (turn7 [alice; bob]) 2 hook (payload7 [alice; bob]) H1 H2))).
Defined.

Lemma payload_hosts_follow_snapshot_witness :
  trigger steady [7] (failing7, []) = (None, (drained7, turn7 [alice; bob]))
  /\ turn7 [alice; bob] !! 1%nat = Some (EvListHosts 7 ([alice; bob], None))
  /\ exists url p res,
       turn7 [alice; bob] !! (1 + 1)%nat = Some (EvPost url p res)
       /\ length (FailingHosts p) = length [alice; bob]
       /\ forall j h,
            [alice; bob] !! j = Some h ->
            exists fh,
              FailingHosts p !! j = Some fh
              /\ ID fh = service.ID h
              /\ Hostname fh = service.Hostname h
              /\ URL fh = path.Join [ServerURL (ServerSettings (config [7] true));
                                     "hosts";
                                     strconv.Itoa (int_of_uint (service.ID h))].
Proof.
  assert (H1 : trigger steady [7] (failing7, [])
               = (None, (drained7, turn7 [alice; bob])))
    by (vm_compute; reflexivity).
  assert (H2 : turn7 [alice; bob] !! 1%nat
               = Some (EvListHosts 7 ([alice; bob], None))) by reflexivity.
  exact (conj H1 (conj H2
    (payload_hosts_follow_snapshot steady (config [7] true) now failing7 None
       drained7 (turn7 [alice; bob]) 1 7 [alice; bob] H1 H2))).
Defined.

Lemma payload_wire_shape_witness :
  trigger steady [7] (failing7, []) = (None, (drained7, turn7 [alice; bob]))
  /\ turn7 [alice; bob] !! 2%nat = Some (EvPost hook (payload7 [alice; bob]) None)
  /\ Timestamp (payload7 [alice; bob]) = now
  /\ (exists policyID off,
        2%nat = (off + 2)%nat
        /\ turn7 [alice; bob] !! off
           = Some (EvPolicy policyID (Policy (payload7 [alice; bob]), None)))
  /\ Marshal json.Number json.String (payload7 [alice; bob])
     = json.Object
         [("timestamp", json.Number now);
          ("policy", match Policy (payload7 [alice; bob]) with
                     | None => json.Null
                     | Some pol => json.String pol
                     end);
          ("hosts", json.Array (map FailingHost_json
                                  (FailingHosts (payload7 [alice; bob]))))]
  /\ json.keys (Marshal json.Number json.String (payload7 [alice; bob]))
     = ["timestamp"; "policy"; "hosts"]
  /\ Forall (fun fh =>
               FailingHost_json fh
               = json.Object [("id", json.Number (ID fh));
                              ("hostname", json.String (Hostname fh));
                              ("url", json.String (URL fh))])
            (FailingHosts (payload7 [alice; bob])).
Proof.
  assert (H1 : trigger steady [7] (failing7, [])
               = (None, (drained7, turn7 [alice; bob])))
    by (vm_compute; reflexivity).
  assert (H2 : turn7 [alice; bob] !! 2%nat
               = Some (EvPost hook (payload7 [alice; bob]) None)) by reflexivity.
  exact (conj H1 (conj H2
    (payload_wire_shape steady (config [7] true) now json.Number json.String
       failing7 None drained7 (turn7 [alice; bob]) 2 hook (payload7 [alice; bob])
       None H1 H2))).
Defined.

Lemma deliveries_follow_configured_order_witness :
  trigger busy [7; 7] (failing7, [])
  = (None, (drained7, (turn7 [alice; bob] ++ turn7 [carol])%list))
  /\ delivered_for (turn7 [alice; bob] ++ turn7 [carol])%list
       `sublist_of` PolicyIDs (FailingPoliciesWebhook
                                 (WebhookSettings (config [7; 7] true)))
  /\ length (delivered_for (turn7 [alice; bob] ++ turn7 [carol])%list)
     = length (deliveries (turn7 [alice; bob] ++ turn7 [carol])%list)
  /\ (NoDup (PolicyIDs (FailingPoliciesWebhook
                          (WebhookSettings (config [7; 7] true)))) ->
      NoDup (delivered_for (turn7 [alice; bob] ++ turn7 [carol])%list)).
Proof.
  assert (H1 : trigger busy [7; 7] (failing7, [])
               = (None, (drained7, (turn7 [alice; bob] ++ turn7 [carol])%list)))
    by (vm_compute; reflexivity).
  exact (conj H1
    (deliveries_follow_configured_order busy (config [7; 7] true) now failing7
       None drained7 (turn7 [alice; bob] ++ turn7 [carol])%list H1)).
Defined.

Lemma empty_snapshot_is_delivered_witness :
  ds_Policy steady 7 ∅ = ((Some disk_encryption, None), ∅)
  /\ set_ListHosts steady 7 ∅ = (([], None), ∅)
  /\ PostJSONWithTimeout steady (destination (config [7] true))
       (payload_of (config [7] true) now (Some disk_encryption) []) ∅
     = (None, ∅)
  /\ set_RemoveHosts steady 7 [] ∅ = (None, ∅)
  /\ FailingHosts (payload_of (config [7] true) now (Some disk_encryption) []) = []
  /\ range steady (config [7] true) now [7] (∅, [])
     = range steady (config [7] true) now []
         (∅,
          (([] ++ [EvPolicy 7 (Some disk_encryption, None);
                   EvListHosts 7 ([], None);
                   EvPost (destination (config [7] true))
                     (payload_of (config [7] true) now (Some disk_encryption) [])
                     None]) ++
           [EvRemoveHosts 7 [] None])%list).
Proof.
  assert (H1 : ds_Policy steady 7 ∅ = ((Some disk_encryption, None), ∅))
    by reflexivity.
  assert (H2 : set_ListHosts steady 7 ∅ = (([], None), ∅)) by reflexivity.
  assert (H3 : PostJSONWithTimeout steady (destination (config [7] true))
                 (payload_of (config [7] true) now (Some disk_encryption) []) ∅
               = (None, ∅)) by reflexivity.
  assert (H4 : set_RemoveHosts steady 7 [] ∅ = (None, ∅)) by reflexivity.
  exact (conj H1 (conj H2 (conj H3 (conj H4
    (empty_snapshot_is_delivered steady (config [7] true) now 7 [] ∅ []
       (Some disk_encryption) ∅ ∅ None ∅ None ∅ H1 H2 H3 H4))))).
Defined.

Lemma second_run_repeats_deliveries_witness :
  trigger steady [7] (failing7, []) = (None, (drained7, turn7 [alice; bob]))
  /\ trigger steady [7] (drained7, []) = (None, (drained7, turn7 []))
  /\ drained7 = drained7
  /\ Forall carries_no_host (turn7 [])
  /\ (@None error = None ->
      length (deliveries (turn7 [])) = length (deliveries (turn7 [alice; bob])))
  /\ (1 <= length (deliveries (turn7 [alice; bob])) ->
      1 <= length (deliveries (turn7 [])))%nat.
Proof.
  assert (H1 : trigger steady [7] (failing7, [])
               = (None, (drained7, turn7 [alice; bob])))
    by (vm_compute; reflexivity).
  assert (H2 : trigger steady [7] (drained7, []) = (None, (drained7, turn7 [])))
    by (vm_compute; reflexivity).
  exact (conj H1 (conj H2
    (second_run_repeats_deliveries catalog accept (config [7] true) now
       failing7 drained7 (turn7 [alice; bob]) None drained7 (turn7 []) H1 H2))).
Defined.

End Runs.

(** ** What a run never does *)
Section OutcomeFacts.

Import fleet webhooks.

Context {PolicyT TimeT W : Type}.
Variable c : Collaborators PolicyT TimeT W.
Variables (appConfig : AppConfig) (now : TimeT).

Local Abbreviation Ev := (event PolicyT TimeT).
Local Abbreviation harmless := (fun ev : Ev => fatal ev = false).

Lemma looked_up_app (tr1 tr2 : list Ev) :
  looked_up (tr1 ++ tr2) = (looked_up tr1 ++ looked_up tr2)%list.
Proof. apply omap_app. Qed.

Lemma calls_app kind (tr1 tr2 : list Ev) :
  calls kind (tr1 ++ tr2) = (calls kind tr1 + calls kind tr2)%nat.
Proof. unfold calls. rewrite List.filter_app. apply length_app. Qed.

(** How a turn ends, with its calls: either with the next identifier
    and no fatal call, or with an error whose cause is the error of its
    last call, the first fatal one. *)
Lemma iteration_outcome policyID w tr f w' tr' :
  iteration c appConfig now policyID (w, tr) = (f, (w', tr')) ->
  exists evs,
    tr' = (tr ++ evs)%list
    /\ looked_up evs = [policyID]
    /\ match f with
       | Next => Forall harmless evs
       | Return r =>
           exists evs0 ev e e',
             r = Some e'
             /\ evs = (evs0 ++ [ev])%list
             /\ event_error ev = Some e
             /\ fatal ev = true
             /\ errors.Unwrap e' = Some e
             /\ Forall harmless evs0
       end.
Proof.
  rewrite iteration_eq.
  destruct (ds_Policy c policyID w) as [[policy [e|]] w1]; cbn.
  { destruct (errors.Is_ErrNoRows e) eqn:HIs; intros [= <- <- <-];
      eexists; (split; [reflexivity|]); (split; [reflexivity|]).
    - repeat constructor. cbn. rewrite HIs. reflexivity.
    - exists [], (EvPolicy policyID (policy, Some e)), e. eexists.
      cbn. rewrite HIs. repeat split; constructor. }
  destruct (set_ListHosts c policyID w1) as [[hosts [e|]] w2]; cbn.
  { intros [= <- <- <-]. rewrite <- app_assoc.
    eexists; (split; [reflexivity|]); (split; [reflexivity|]).
    exists [EvPolicy policyID (policy, None)],
      (EvListHosts policyID (hosts, Some e)), e. eexists.
    repeat split; repeat constructor. }
  destruct (PostJSONWithTimeout c _ _ w2) as [[e|] w3]; cbn.
  { intros [= <- <- <-]. rewrite <- !app_assoc.
    eexists; (split; [reflexivity|]); (split; [reflexivity|]).
    exists [EvPolicy policyID (policy, None); EvListHosts policyID (hosts, None)],
      (EvPost (destination appConfig) (payload_of appConfig now policy hosts) (Some e)), e.
    eexists. repeat split; repeat constructor. }
  destruct (set_RemoveHosts c policyID hosts w3) as [[e|] w4]; cbn;
    intros [= <- <- <-]; rewrite <- !app_assoc;
    eexists; (split; [reflexivity|]); (split; [reflexivity|]).
  - exists [EvPolicy policyID (policy, None); EvListHosts policyID (hosts, None);
            EvPost (destination appConfig) (payload_of appConfig now policy hosts) None],
      (EvRemoveHosts policyID hosts (Some e)), e.
    eexists. repeat split; repeat constructor.
  - repeat constructor.
Qed.

Lemma range_outcome policyIDs : forall w tr r w' tr',
  range c appConfig now policyIDs (w, tr) = (r, (w', tr')) ->
  exists evs,
    tr' = (tr ++ evs)%list
    /\ looked_up evs `prefix_of` policyIDs
    /\ match r with
       | None => looked_up evs = policyIDs /\ Forall harmless evs
       | Some e' =>
           exists evs0 ev e,
             evs = (evs0 ++ [ev])%list
             /\ event_error ev = Some e
             /\ fatal ev = true
             /\ errors.Unwrap e' = Some e
             /\ Forall harmless evs0
       end.
Proof.
  induction policyIDs as [|policyID rest IH]; intros w tr r w' tr'.
  - cbn. unfold ret. intros [= <- <- <-]. exists [].
    rewrite app_nil_r. split; [reflexivity|]. split; [apply prefix_nil|].
    split; [reflexivity|constructor].
  - rewrite range_cons.
    destruct (iteration c appConfig now policyID (w, tr)) as [f [w1 tr1]] eqn:Hturn.
    apply iteration_outcome in Hturn as (evs & -> & Hlook & Hend).
    destruct f as [|r1].
    + intros Hrest. apply IH in Hrest as (evs' & -> & Hpre & Hres).
      exists (evs ++ evs')%list. split; [symmetry; apply app_assoc|].
      rewrite looked_up_app, Hlook. split; [apply prefix_cons, Hpre|].
      destruct r as [e'|].
      * destruct Hres as (evs0 & ev & e & -> & He & Hf & Hc & Hok).
        exists (evs ++ evs0)%list, ev, e. rewrite app_assoc.
        repeat split; try assumption. apply Forall_app; split; assumption.
      * destruct Hres as [-> Hok]. split; [reflexivity|].
        apply Forall_app; split; assumption.
    + intros [= <- <- <-].
      destruct Hend as (evs0 & ev & e & e' & -> & -> & He & Hf & Hc & Hok).
      exists (evs0 ++ [ev])%list. split; [reflexivity|].
      rewrite Hlook. split; [apply prefix_cons, prefix_nil|].
      exists evs0, ev, e. repeat split; assumption.
Qed.

Lemma hostOf_makeFailingHost host url : hostOf (makeFailingHost host url) = host.
Proof. destruct host. reflexivity. Qed.

(** The snapshot can be read back from the list of failing hosts built
    from it: same hosts, same order. *)
Theorem payload_hosts_round_trip hosts url :
  map hostOf (fillFailingHosts hosts url) = hosts.
Proof.
  rewrite fillFailingHosts_map, map_map.
  induction hosts as [|h hosts IH]; [reflexivity|].
  cbn [map]. rewrite hostOf_makeFailingHost, IH. reflexivity.
Qed.

(** The metadata lookups of a run are made for the configured
    identifiers in their order, none skipped and none repeated: the
    identifiers looked up are a prefix of the configured list, and the
    whole list when the webhook is enabled and the run returns [nil]. *)
Theorem lookups_follow_the_list w r w' tr :
  TriggerFailingPoliciesWebhook c appConfig now (w, []) = (r, (w', tr)) ->
  looked_up tr `prefix_of` PolicyIDs (FailingPoliciesWebhook (WebhookSettings appConfig))
  /\ (Enable (FailingPoliciesWebhook (WebhookSettings appConfig)) = true ->
      r = None ->
      looked_up tr = PolicyIDs (FailingPoliciesWebhook (WebhookSettings appConfig))).
Proof.
  unfold TriggerFailingPoliciesWebhook.
  destruct (Enable (FailingPoliciesWebhook (WebhookSettings appConfig))); cbn.
  - intros Hrun. apply range_outcome in Hrun as (evs & -> & Hpre & Hres).
    split; [exact Hpre|]. intros _ ->. apply Hres.
  - unfold ret. intros [= <- <- <-]. split; [apply prefix_nil|discriminate].
Qed.

(** A run returns [nil] only when no call failed, not-found lookups
    apart; when it returns an error, the last call of the trace is the
    one that failed, the error returned wraps the error of that call,
    and no call before it failed. *)
Theorem returned_error_is_the_last_call w r w' tr :
  TriggerFailingPoliciesWebhook c appConfig now (w, []) = (r, (w', tr)) ->
  match r with
  | None => Forall (fun ev => fatal ev = false) tr
  | Some e' =>
      exists tr0 ev e,
        tr = (tr0 ++ [ev])%list
        /\ event_error ev = Some e
        /\ fatal ev = true
        /\ errors.Unwrap e' = Some e
        /\ Forall (fun ev => fatal ev = false) tr0
  end.
Proof.
  unfold TriggerFailingPoliciesWebhook.
  destruct (Enable (FailingPoliciesWebhook (WebhookSettings appConfig))); cbn.
  - intros Hrun. apply range_outcome in Hrun as (evs & -> & _ & Hres).
    destruct r; [exact Hres|apply Hres].
  - unfold ret. intros [= <- <- <-]. constructor.
Qed.

(** removeHosts is never called but right after a delivery that
    succeeded: the two calls before it are the snapshot of the same
    policy and the successful post of the payload built from that
    snapshot, and the hosts removed are the hosts of that payload. *)
Theorem prune_only_after_delivery w r w' tr i policyID hosts res :
  TriggerFailingPoliciesWebhook c appConfig now (w, []) = (r, (w', tr)) ->
  tr !! i = Some (EvRemoveHosts policyID hosts res) ->
  exists policy off,
    i = (off + 3)%nat
    /\ tr !! (off + 1)%nat = Some (EvListHosts policyID (hosts, None))
    /\ tr !! (off + 2)%nat
       = Some (EvPost (destination appConfig)
                 (payload_of appConfig now policy hosts) None)
    /\ map hostOf (FailingHosts (payload_of appConfig now policy hosts)) = hosts.
Proof.
  intros Hrun Hi. apply trigger_events in Hrun.
  destruct (cycle_events_lookup _ _ _ _ _ _ Hrun Hi)
    as (id' & blk & off & k & Hin & Hturn & -> & Hk & Hblk).
  destruct Hturn as [policy e|policy hosts' e|policy hosts' e|policy hosts' res'];
    destruct k as [|[|[|[|k]]]]; cbn in Hk; try discriminate.
  injection Hk as <- <- <-.
  exists policy, off.
  pose proof (Hblk 1%nat) as H1. pose proof (Hblk 2%nat) as H2. cbn in H1, H2.
  repeat split; auto with lia.
  apply payload_hosts_round_trip.
Qed.

(** Every delivery attempt, accepted or not, goes to the configured
    destination and carries the payload built from the snapshot taken
    by the call before it, for a policy whose lookup succeeded. *)
Theorem every_post_goes_to_destination w r w' tr i url p res :
  TriggerFailingPoliciesWebhook c appConfig now (w, []) = (r, (w', tr)) ->
  tr !! i = Some (EvPost url p res) ->
  url = DestinationURL (FailingPoliciesWebhook (WebhookSettings appConfig))
  /\ exists policyID policy hosts off,
       i = (off + 2)%nat
       /\ tr !! off = Some (EvPolicy policyID (policy, None))
       /\ tr !! (off + 1)%nat = Some (EvListHosts policyID (hosts, None))
       /\ p = payload_of appConfig now policy hosts.
Proof.
  intros Hrun Hi. apply trigger_events in Hrun.
  destruct (cycle_events_lookup _ _ _ _ _ _ Hrun Hi)
    as (policyID & blk & off & k & Hin & Hturn & -> & Hk & Hblk).
  destruct Hturn as [policy e|policy hosts e|policy hosts e|policy hosts res'];
    destruct k as [|[|[|[|k]]]]; cbn in Hk; try discriminate;
    injection Hk as <- <- <-; (split; [reflexivity|]);
    exists policyID, policy, hosts, off;
    pose proof (Hblk 0%nat) as H0; pose proof (Hblk 1%nat) as H1;
    cbn in H0, H1; rewrite Nat.add_0_r in H0; repeat split; auto with lia.
Qed.

(** The failing set of a policy is read only after the metadata lookup
    for that policy succeeded, in the call just before. *)
Theorem snapshot_only_after_lookup w r w' tr i policyID res :
  TriggerFailingPoliciesWebhook c appConfig now (w, []) = (r, (w', tr)) ->
  tr !! i = Some (EvListHosts policyID res) ->
  policyID ∈ PolicyIDs (FailingPoliciesWebhook (WebhookSettings appConfig))
  /\ exists policy off,
       i = (off + 1)%nat
       /\ tr !! off = Some (EvPolicy policyID (policy, None)).
Proof.
  intros Hrun Hi. apply trigger_events in Hrun.
  destruct (cycle_events_lookup _ _ _ _ _ _ Hrun Hi)
    as (id' & blk & off & k & Hin & Hturn & -> & Hk & Hblk).
  destruct Hturn as [policy e|policy hosts e|policy hosts e|policy hosts res'];
    destruct k as [|[|[|[|k]]]]; cbn in Hk; try discriminate;
    injection Hk as <- <-; (split; [exact Hin|]);
    exists policy, off; pose proof (Hblk 0%nat) as H0; cbn in H0;
    rewrite Nat.add_0_r in H0; split; auto with lia.
Qed.

Lemma cycle_events_calls policyIDs (evs : list Ev) :
  cycle_events appConfig now policyIDs evs ->
  (calls is_remove evs <= calls is_post evs
   /\ calls is_post evs <= calls is_list evs
   /\ calls is_list evs <= calls is_policy evs
   /\ calls is_policy evs <= length policyIDs
   /\ length evs <= 4 * length policyIDs)%nat.
Proof.
  induction 1 as [ids|policyID rest blk tr Hturn Hrest IH].
  - cbn. lia.
  - rewrite !calls_app, length_app. cbn [length].
    destruct Hturn; cbn; lia.
Qed.

(** In a run there are no more removals than posts, no more posts than
    snapshots, no more snapshots than metadata lookups, and no more
    lookups than configured identifiers: at most four calls for each. *)
Theorem calls_are_bounded_by_the_list w r w' tr :
  TriggerFailingPoliciesWebhook c appConfig now (w, []) = (r, (w', tr)) ->
  (calls is_remove tr <= calls is_post tr
   /\ calls is_post tr <= calls is_list tr
   /\ calls is_list tr <= calls is_policy tr
   /\ calls is_policy tr
      <= length (PolicyIDs (FailingPoliciesWebhook (WebhookSettings appConfig)))
   /\ length tr
      <= 4 * length (PolicyIDs (FailingPoliciesWebhook (WebhookSettings appConfig))))%nat.
Proof.
  intros Hrun. apply trigger_events in Hrun.
  apply cycle_events_calls. exact Hrun.
Qed.

End OutcomeFacts.

(** ** The host identifier in the URL *)
Section HostIdFacts.

Import webhooks.



End HostIdFacts.

(** ** More runs on concrete worlds *)
Section MoreRuns.

Import fleet webhooks memstore scenario.

Local Abbreviation skipped5 := (EvPolicy (PolicyT := string) (TimeT := Z) 5
                                  (None, Some sql_ErrNoRows)).

(** The calls of a turn for policy 7 whose delivery times out. *)
Local Abbreviation failed7 :=
  [EvPolicy 7 (Some disk_encryption, None);
   EvListHosts 7 ([alice; bob], None);
   EvPost hook (payload7 [alice; bob]) (Some deadline)].

Lemma lookups_follow_the_list_witness :
  TriggerFailingPoliciesWebhook steady (config [5; 7] true) now (failing7, [])
  = (None, (drained7, skipped5 :: turn7 [alice; bob]))
  /\ looked_up (skipped5 :: turn7 [alice; bob])
       `prefix_of` PolicyIDs (FailingPoliciesWebhook (WebhookSettings (config [5; 7] true)))
  /\ (Enable (FailingPoliciesWebhook (WebhookSettings (config [5; 7] true))) = true ->
      @None error = None ->
      looked_up (skipped5 :: turn7 [alice; bob])
      = PolicyIDs (FailingPoliciesWebhook (WebhookSettings (config [5; 7] true)))).
Proof.
  assert (H1 : TriggerFailingPoliciesWebhook steady (config [5; 7] true) now
                 (failing7, [])
               = (None, (drained7, skipped5 :: turn7 [alice; bob])))
    by (vm_compute; reflexivity).
  exact (conj H1
    (lookups_follow_the_list steady (config [5; 7] true) now failing7 None drained7
       (skipped5 :: turn7 [alice; bob]) H1)).
Defined.

Lemma returned_error_is_the_last_call_witness :
  TriggerFailingPoliciesWebhook outage (config [5; 7; 3] true) now (failing7, [])
  = (Some (wrapError "posting to '%s'" [ArgString hook] deadline),
     (failing7, skipped5 :: failed7))
  /\ exists tr0 ev e,
       skipped5 :: failed7 = (tr0 ++ [ev])%list
       /\ event_error ev = Some e
       /\ fatal ev = true
       /\ errors.Unwrap (wrapError "posting to '%s'" [ArgString hook] deadline) = Some e
       /\ Forall (fun ev => fatal ev = false) tr0.
Proof.
  assert (H1 : TriggerFailingPoliciesWebhook outage (config [5; 7; 3] true) now
                 (failing7, [])
               = (Some (wrapError "posting to '%s'" [ArgString hook] deadline),
                  (failing7, skipped5 :: failed7)))
    by (vm_compute; reflexivity).
  exact (conj H1
    (returned_error_is_the_last_call outage (config [5; 7; 3] true) now failing7
       (Some (wrapError "posting to '%s'" [ArgString hook] deadline)) failing7
       (skipped5 :: failed7) H1)).
Defined.

Lemma prune_only_after_delivery_witness :
  TriggerFailingPoliciesWebhook steady (config [7] true) now (failing7, [])
  = (None, (drained7, turn7 [alice; bob]))
  /\ turn7 [alice; bob] !! 3%nat = Some (EvRemoveHosts 7 [alice; bob] None)
  /\ exists policy off,
       3%nat = (off + 3)%nat
       /\ turn7 [alice; bob] !! (off + 1)%nat
          = Some (EvListHosts 7 ([alice; bob], None))
       /\ turn7 [alice; bob] !! (off + 2)%nat
          = Some (EvPost (destination (config [7] true))
                    (payload_of (config [7] true) now policy [alice; bob]) None)
       /\ map hostOf (FailingHosts (payload_of (config [7] true) now policy
                                      [alice; bob]))
          = [alice; bob].
Proof.
  assert (H1 : TriggerFailingPoliciesWebhook steady (config [7] true) now
                 (failing7, [])
               = (None, (drained7, turn7 [alice; bob])))
    by (vm_compute; reflexivity).
  assert (H2 : turn7 [alice; bob] !! 3%nat = Some (EvRemoveHosts 7 [alice; bob] None))
    by reflexivity.
  exact (conj H1 (conj H2
    (prune_only_after_delivery steady (config [7] true) now failing7 None drained7
       (turn7 [alice; bob]) 3 7 [alice; bob] None H1 H2))).
Defined.

Lemma every_post_goes_to_destination_witness :
  TriggerFailingPoliciesWebhook outage (config [7] true) now (failing7, [])
  = (Some (wrapError "posting to '%s'" [ArgString hook] deadline),
     (failing7, failed7))
  /\ failed7 !! 2%nat = Some (EvPost hook (payload7 [alice; bob]) (Some deadline))
  /\ hook = DestinationURL (FailingPoliciesWebhook (WebhookSettings (config [7] true)))
  /\ exists policyID policy hosts off,
       2%nat = (off + 2)%nat
       /\ failed7 !! off = Some (EvPolicy policyID (policy, None))
       /\ failed7 !! (off + 1)%nat = Some (EvListHosts policyID (hosts, None))
       /\ payload7 [alice; bob] = payload_of (config [7] true) now policy hosts.
Proof.
  assert (H1 : TriggerFailingPoliciesWebhook outage (config [7] true) now
                 (failing7, [])
               = (Some (wrapError "posting to '%s'" [ArgString hook] deadline),
                  (failing7, failed7)))
    by (vm_compute; reflexivity).
  assert (H2 : failed7 !! 2%nat
               = Some (EvPost hook (payload7 [alice; bob]) (Some deadline)))
    by reflexivity.
  exact (conj H1 (conj H2
    (every_post_goes_to_destination outage (config [7] true) now failing7
       (Some (wrapError "posting to '%s'" [ArgString hook] deadline)) failing7
       failed7 2 hook (payload7 [alice; bob]) (Some deadline) H1 H2))).
Defined.

Lemma snapshot_only_after_lookup_witness :
  TriggerFailingPoliciesWebhook steady (config [7] true) now (failing7, [])
  = (None, (drained7, turn7 [alice; bob]))
  /\ turn7 [alice; bob] !! 1%nat = Some (EvListHosts 7 ([alice; bob], None))
  /\ 7 ∈ PolicyIDs (FailingPoliciesWebhook (WebhookSettings (config [7] true)))
  /\ exists policy off,
       1%nat = (off + 1)%nat
       /\ turn7 [alice; bob] !! off = Some (EvPolicy 7 (policy, None)).
Proof.
  assert (H1 : TriggerFailingPoliciesWebhook steady (config [7] true) now
                 (failing7, [])
               = (None, (drained7, turn7 [alice; bob])))
    by (vm_compute; reflexivity).
  assert (H2 : turn7 [alice; bob] !! 1%nat = Some (EvListHosts 7 ([alice; bob], None)))
    by reflexivity.
  exact (conj H1 (conj H2
    (snapshot_only_after_lookup steady (config [7] true) now failing7 None drained7
       (turn7 [alice; bob]) 1 7 ([alice; bob], None) H1 H2))).
Defined.

Lemma calls_are_bounded_by_the_list_witness :
  TriggerFailingPoliciesWebhook busy (config [7; 7] true) now (failing7, [])
  = (None, (drained7, (turn7 [alice; bob] ++ turn7 [carol])%list))
  /\ (calls is_remove (turn7 [alice; bob] ++ turn7 [carol])
      <= calls is_post (turn7 [alice; bob] ++ turn7 [carol])
      /\ calls is_post (turn7 [alice; bob] ++ turn7 [carol])
         <= calls is_list (turn7 [alice; bob] ++ turn7 [carol])
      /\ calls is_list (turn7 [alice; bob] ++ turn7 [carol])
         <= calls is_policy (turn7 [alice; bob] ++ turn7 [carol])
      /\ calls is_policy (turn7 [alice; bob] ++ turn7 [carol])
         <= length (PolicyIDs (FailingPoliciesWebhook
                                 (WebhookSettings (config [7%Z; 7%Z] true))))
      /\ length (turn7 [alice; bob] ++ turn7 [carol])
         <= 4 * length (PolicyIDs (FailingPoliciesWebhook
                                     (WebhookSettings (config [7%Z; 7%Z] true)))))%nat.
Proof.
  assert (H1 : TriggerFailingPoliciesWebhook busy (config [7; 7] true) now
                 (failing7, [])
               = (None, (drained7, (turn7 [alice; bob] ++ turn7 [carol])%list)))
    by (vm_compute; reflexivity).
  exact (conj H1
    (calls_are_bounded_by_the_list busy (config [7; 7] true) now failing7 None
       drained7 (turn7 [alice; bob] ++ turn7 [carol])%list H1)).
Defined.

End MoreRuns.

(** ** [path.Clean] leaves no two slashes in a row *)
Section SlashFacts.

Import path.

Implicit Types l seg : list ascii.

Lemma double_slash_cons a b l :
  double_slash (a :: b :: l)
  = (byte_eqb a slash && byte_eqb b slash) || double_slash (b :: l).
Proof. reflexivity. Qed.

Lemma double_slash_snoc l c :
  double_slash (l ++ [c])
  = double_slash l || (last_is_slash l && byte_eqb c slash).
Proof.
  induction l as [|a l IH]; [reflexivity|].
  destruct l as [|b l].
  - cbn. rewrite !orb_false_r. reflexivity.
  - change ((a :: b :: l) ++ [c])%list with (a :: b :: (l ++ [c]))%list.
    rewrite !double_slash_cons.
    change (b :: (l ++ [c]))%list with ((b :: l) ++ [c])%list.
    rewrite IH. unfold last_is_slash. rewrite last_cons_cons.
    rewrite orb_assoc. reflexivity.
Qed.

Lemma last_is_slash_snoc l c : last_is_slash (l ++ [c]) = byte_eqb c slash.
Proof. unfold last_is_slash. rewrite last_snoc. reflexivity. Qed.

Lemma double_slash_take k l :
  double_slash l = false -> double_slash (take k l) = false.
Proof.
  revert k. induction l as [|a l IH]; intros k Hl.
  - rewrite take_nil. reflexivity.
  - destruct k as [|k]; [reflexivity|].
    destruct l as [|b l]; [destruct k; reflexivity|].
    rewrite double_slash_cons in Hl. apply orb_false_elim in Hl as [Hab Hl].
    destruct k as [|k]; [reflexivity|].
    change (take (S (S k)) (a :: b :: l)) with (a :: b :: take k l).
    rewrite double_slash_cons, Hab.
    apply (IH (S k) Hl).
Qed.

(** Without two slashes in a row, what comes before a slash is not one. *)
Lemma double_slash_before l i a b :
  double_slash l = false ->
  l !! i = Some a -> l !! S i = Some b ->
  byte_eqb b slash = true -> byte_eqb a slash = false.
Proof.
  revert i. induction l as [|x l IH]; intros i Hl Ha Hb Hslash; [discriminate|].
  destruct l as [|y l]; [discriminate|].
  rewrite double_slash_cons in Hl. apply orb_false_elim in Hl as [Hxy Hl].
  destruct i as [|i].
  - cbn in Ha, Hb. injection Ha as <-. injection Hb as <-.
    rewrite Hslash, andb_true_r in Hxy. exact Hxy.
  - apply (IH i Hl Ha Hb Hslash).
Qed.

Lemma last_is_slash_take l k b :
  double_slash l = false ->
  l !! k = Some b -> byte_eqb b slash = true ->
  last_is_slash (take k l) = false.
Proof.
  intros Hl Hk Hb. unfold last_is_slash. rewrite last_lookup.
  assert (Hlen : (k < length l)%nat) by (eapply lookup_lt_Some; exact Hk).
  rewrite length_take_le by lia.
  destruct k as [|k]; [reflexivity|]. cbn [pred].
  rewrite lookup_take_lt by lia.
  destruct (l !! k) as [a|] eqn:Ha; [|reflexivity].
  eapply double_slash_before; eassumption.
Qed.

(** Bytes that are no slashes, added at the end, bring no double slash
    and leave no slash at the end. *)
Lemma double_slash_app_plain l seg :
  double_slash l = false ->
  Forall (fun a => byte_eqb a slash = false) seg ->
  double_slash (l ++ seg) = false
  /\ (seg <> [] -> last_is_slash (l ++ seg) = false).
Proof.
  intros Hl Hseg. revert l Hl.
  induction Hseg as [|a seg Ha Hseg IH]; intros l Hl.
  - rewrite app_nil_r. split; [exact Hl|congruence].
  - replace (l ++ a :: seg)%list with ((l ++ [a]) ++ seg)%list
      by (rewrite <- app_assoc; reflexivity).
    assert (Hla : double_slash (l ++ [a]) = false).
    { rewrite double_slash_snoc, Hl, Ha, andb_false_r. reflexivity. }
    destruct (IH _ Hla) as [Hgood Hlast]. split; [exact Hgood|].
    intros _. destruct seg as [|b seg].
    + rewrite app_nil_r, last_is_slash_snoc. exact Ha.
    + apply Hlast. discriminate.
Qed.

Lemma double_slash_app_l l1 l2 :
  double_slash l1 = true -> double_slash (l1 ++ l2) = true.
Proof.
  induction l1 as [|a l1 IH]; [discriminate|].
  destruct l1 as [|b l1]; [discriminate|].
  rewrite double_slash_cons. intros H.
  change ((a :: b :: l1) ++ l2)%list with (a :: b :: (l1 ++ l2))%list.
  rewrite double_slash_cons.
  apply orb_true_iff in H as [H|H]; [rewrite H; reflexivity|].
  change (b :: (l1 ++ l2))%list with ((b :: l1) ++ l2)%list.
  rewrite (IH H). apply orb_true_r.
Qed.

End SlashFacts.

Section LazybufFacts.

Import path.

Variable p : list ascii.

Implicit Types out : lazybuf.

Lemma at_lookup (l : list ascii) i : (i < length l)%nat -> l !! i = Some (at_ l i).
Proof.
  intros Hi. unfold at_.
  destruct (lookup_lt_is_Some_2 l i Hi) as [a ->]. reflexivity.
Qed.

(** A byte read as a slash or a dot was read inside the slice. *)
Lemma at_in_range (l : list ascii) i c :
  byte_eqb (at_ l i) c = true -> c <> zero -> (i < length l)%nat.
Proof.
  unfold at_. intros Heq Hc.
  destruct (l !! i) as [a|] eqn:Hi; [eapply lookup_lt_Some; exact Hi|].
  change (Ascii.eqb zero c = true) in Heq.
  apply Ascii.eqb_eq in Heq. congruence.
Qed.

Lemma take_S_insert (l : list ascii) i c :
  (i < length l)%nat -> take (S i) (<[i := c]> l) = (take i l ++ [c])%list.
Proof.
  intros Hi.
  rewrite (take_S_r _ _ c) by (apply list_lookup_insert_eq; exact Hi).
  rewrite take_insert_ge by lia. reflexivity.
Qed.

Lemma length_string out : lazybuf_wf p out -> length (string_ out) = w out.
Proof.
  intros (Hs & Hw & Hbuf). unfold string_.
  destruct (buf out) as [bf|] eqn:Hb.
  - apply length_take_le. rewrite (Hbuf bf eq_refl). exact Hw.
  - apply length_take_le. rewrite Hs. exact Hw.
Qed.

Lemma append_spec out c :
  lazybuf_wf p out -> (w out < length p)%nat ->
  lazybuf_wf p (append out c)
  /\ string_ (append out c) = (string_ out ++ [c])%list
  /\ w (append out c) = S (w out).
Proof.
  intros (Hs & Hw & Hbuf) Hlt. unfold append, string_.
  destruct (buf out) as [bf|] eqn:Hb.
  - cbn. pose proof (Hbuf bf eq_refl) as Hlen.
    repeat split; try assumption; try lia.
    + intros bf' [= <-]. rewrite length_insert. exact Hlen.
    + apply take_S_insert. lia.
  - destruct ((w out <? length (s out))%nat && byte_eqb (at_ (s out) (w out)) c)
      eqn:Hsame; cbn.
    + apply andb_true_iff in Hsame as [_ Hc]. apply Ascii.eqb_eq in Hc.
      repeat split; try assumption; try lia; try discriminate.
      apply take_S_r. rewrite <- Hc. apply at_lookup. rewrite Hs. exact Hlt.
    + assert (Hfresh : length (fresh_buf out) = length p).
      { unfold fresh_buf. rewrite Hs.
        rewrite length_app, length_take_le, length_replicate by lia. lia. }
      repeat split; try assumption; try lia.
      * intros bf' [= <-]. rewrite length_insert. exact Hfresh.
      * rewrite take_S_insert by lia. f_equal.
        unfold fresh_buf.
        rewrite take_app_le by (rewrite length_take_le; rewrite ?Hs; lia).
        apply take_idemp.
Qed.

Lemma set_w_spec out k :
  lazybuf_wf p out -> (k <= w out)%nat ->
  lazybuf_wf p (set_w out k)
  /\ string_ (set_w out k) = take k (string_ out)
  /\ w (set_w out k) = k.
Proof.
  intros (Hs & Hw & Hbuf) Hk. unfold lazybuf_wf, set_w, string_. cbn.
  repeat split; try assumption; try lia.
  destruct (buf out); rewrite take_take; f_equal; lia.
Qed.

Lemma index_spec out i :
  (i < w out)%nat -> index out i = at_ (string_ out) i.
Proof.
  intros Hi. unfold index, string_, at_.
  destruct (buf out); rewrite lookup_take_lt by exact Hi; reflexivity.
Qed.

Lemma set_w_set_w out j k : set_w (set_w out j) k = set_w out k.
Proof. reflexivity. Qed.

Lemma index_set_w out k i : index (set_w out k) i = index out i.
Proof. reflexivity. Qed.

(** Backtracking stops at [dotdot] or right before a slash of the
    output as it was. *)
Lemma backtrack_spec out0 dotdot : forall fuel k,
  (k < w out0)%nat -> (k <= fuel)%nat ->
  exists k',
    backtrack fuel dotdot (set_w out0 k) = set_w out0 k'
    /\ (k' <= k)%nat
    /\ (dotdot <= k -> dotdot <= k')%nat
    /\ ((dotdot < k')%nat -> byte_eqb (at_ (string_ out0) k') slash = true).
Proof.
  induction fuel as [|fuel IH]; intros k Hk Hfuel.
  - exists k. cbn. repeat split; auto; lia.
  - cbn [backtrack]. rewrite index_set_w. cbn [w set_w].
    destruct (dotdot <? k)%nat eqn:Hdd; cbn [andb].
    + destruct (byte_eqb (index out0 k) slash) eqn:Hslash; cbn [negb].
      * exists k. rewrite index_spec in Hslash by exact Hk.
        repeat split; auto.
      * apply Nat.ltb_lt in Hdd. rewrite set_w_set_w.
        destruct (IH (k - 1)%nat) as (k' & Heq & Hle & Hge & Hat); try lia.
        exists k'. repeat split; auto; lia.
    + apply Nat.ltb_ge in Hdd. exists k. repeat split; auto; lia.
Qed.

(** Copying an element appends bytes that are no slashes, one for each
    byte read, and stops at a slash or at the end of the input. *)
Lemma copy_element_spec : forall fuel r out,
  lazybuf_wf p out -> (w out <= r)%nat -> (r <= length p)%nat ->
  exists r' out' seg,
    copy_element fuel p (length p) r out = (r', out')
    /\ lazybuf_wf p out'
    /\ (r <= r' <= length p)%nat
    /\ (w out' + r = w out + r')%nat
    /\ string_ out' = (string_ out ++ seg)%list
    /\ Forall (fun a => byte_eqb a slash = false) seg
    /\ ((0 < fuel)%nat -> (r < length p)%nat ->
        byte_eqb (at_ p r) slash = false -> seg <> [])
    /\ ((length p <= r + fuel)%nat ->
        r' = length p \/ byte_eqb (at_ p r') slash = true).
Proof.
  assert (Hstay : forall (Q : Prop) fuel r out,
    lazybuf_wf p out -> (r <= length p)%nat ->
    ((0 < fuel)%nat -> (r < length p)%nat -> Q -> False) ->
    ((length p <= r + fuel)%nat ->
     r = length p \/ byte_eqb (at_ p r) slash = true) ->
    exists r' out' seg,
      (r, out) = (r', out')
      /\ lazybuf_wf p out'
      /\ (r <= r' <= length p)%nat
      /\ (w out' + r = w out + r')%nat
      /\ string_ out' = (string_ out ++ seg)%list
      /\ Forall (fun a => byte_eqb a slash = false) seg
      /\ ((0 < fuel)%nat -> (r < length p)%nat -> Q -> seg <> [])
      /\ ((length p <= r + fuel)%nat ->
          r' = length p \/ byte_eqb (at_ p r') slash = true)).
  { intros Q fuel r out Hwf Hr Hslash Hstop. exists r, out, [].
    rewrite app_nil_r.
    split; [reflexivity|]. split; [exact Hwf|]. split; [lia|].
    split; [reflexivity|]. split; [reflexivity|]. split; [constructor|].
    split; [|exact Hstop].
    intros H0 Hlt HQ. destruct (Hslash H0 Hlt HQ). }
  induction fuel as [|fuel IH]; intros r out Hwf Hw Hr.
  - cbn [copy_element]. apply Hstay; auto; intros; first [lia | left; lia].
  - cbn [copy_element].
    destruct (r <? length p)%nat eqn:Hlt; cbn [andb].
    + apply Nat.ltb_lt in Hlt.
      destruct (byte_eqb (at_ p r) slash) eqn:Hslash; cbn [negb].
      * apply Hstay; auto. intros _ _ Hne. discriminate.
      * destruct (append_spec out (at_ p r) Hwf) as (Hwf1 & Hstr1 & Hw1); [lia|].
        destruct (IH (S r) (append out (at_ p r)) Hwf1) as
          (r' & out' & seg & Heq & Hwf' & Hrr & Hww & Hstr & Hseg & _ & Hstop);
          try lia.
        exists r', out', (at_ p r :: seg). rewrite Heq.
        split; [reflexivity|]. split; [exact Hwf'|]. split; [lia|].
        split; [lia|].
        split; [rewrite Hstr, Hstr1, <- app_assoc; reflexivity|].
        split; [constructor; assumption|].
        split; [discriminate|].
        intros Hfuel. apply Hstop. lia.
    + apply Nat.ltb_ge in Hlt. apply Hstay; auto; intros; first [lia | left; lia].
Qed.

End LazybufFacts.

Section CleanFacts.

Import path.

Variable p : list ascii.
Variable rooted : bool.

Implicit Types out : lazybuf.

Local Abbreviation n := (length p).
Local Abbreviation inv := (clean_inv p rooted).

Lemma dot_is_no_slash a : byte_eqb a dot = true -> byte_eqb a slash = false.
Proof. intros H. apply Ascii.eqb_eq in H. subst a. reflexivity. Qed.

Lemma string_nil out : lazybuf_wf p out -> w out = 0%nat -> string_ out = [].
Proof.
  intros Hwf Hw. apply length_zero_iff_nil.
  rewrite (length_string p out Hwf). exact Hw.
Qed.

(** Reading on without writing keeps the loop in order. *)
Lemma inv_skip r r' dotdot out :
  inv r dotdot out -> (r < r')%nat -> (r' <= n)%nat -> inv r' dotdot out.
Proof.
  intros (Hwf & Hr & Hw & HJ & Hgood & Hend & Hdd & Hddl) Hlt Hle.
  unfold clean_inv.
  split; [exact Hwf|]. split; [exact Hle|]. split; [lia|].
  split; [intros; lia|]. auto.
Qed.

(** A [..] element that backtracks. *)
Lemma inv_backtrack r r' dotdot out :
  inv r dotdot out -> (dotdot < w out)%nat -> (r < r')%nat -> (r' <= n)%nat ->
  inv r' dotdot (backtrack (w out - 1) dotdot (set_w out (w out - 1))).
Proof.
  intros (Hwf & Hr & Hw & HJ & Hgood & Hend & Hdd & Hddl) Hdot Hlt Hle.
  destruct (backtrack_spec out dotdot (w out - 1) (w out - 1))
    as (k & -> & Hk & Hge & Hat); try lia.
  destruct (set_w_spec p out k Hwf) as (Hwf' & Hstr & Hwk); [lia|].
  pose proof (length_string p out Hwf) as Hlen.
  unfold clean_inv. rewrite Hstr, Hwk.
  split; [exact Hwf'|]. split; [exact Hle|]. split; [lia|].
  split; [intros; lia|].
  split; [apply double_slash_take; exact Hgood|].
  split.
  - destruct (decide (dotdot < k)%nat) as [Hin|Hout].
    + right. right.
      apply (last_is_slash_take _ _ (at_ (string_ out) k)); auto.
      apply at_lookup. lia.
    + assert (k = dotdot) by lia. subst k.
      destruct Hddl as [->|[[Hroot ->]|Hlast]]; auto.
  - split; [lia|].
    destruct Hddl as [->|[[Hroot ->]|Hlast]]; auto.
    right. right. rewrite take_take.
    replace (dotdot `min` k)%nat with dotdot by lia. exact Hlast.
Qed.

(** A [..] element that cannot backtrack, in a path that is not
    rooted, is written out. *)
Lemma inv_dotdot r dotdot out :
  rooted = false ->
  inv r dotdot out -> ~ (dotdot < w out)%nat ->
  byte_eqb (at_ p r) dot = true -> byte_eqb (at_ p (r + 1)) dot = true ->
  ((r + 2)%nat = n \/ byte_eqb (at_ p (r + 2)) slash = true) ->
  let out1 := if (0 <? w out)%nat then append out slash else out in
  let out3 := append (append out1 dot) dot in
  inv (r + 2) (w out3) out3.
Proof.
  intros Hroot (Hwf & Hr & Hw & HJ & Hgood & Hend & Hdd & Hddl) Hdot Hd0 Hd1 Hnext
    out1 out3.
  assert (Hr1 : (r + 1 < n)%nat).
  { apply (at_in_range _ _ dot Hd1). discriminate. }
  assert (H1 : lazybuf_wf p out1 /\ (w out1 < r + 1)%nat
               /\ double_slash (string_ out1) = false
               /\ (w out1 = 0%nat \/ last_is_slash (string_ out1) = true)).
  { subst out1. destruct (0 <? w out)%nat eqn:Hpos.
    - apply Nat.ltb_lt in Hpos.
      assert (Hlt : (w out < r)%nat).
      { destruct (decide (w out = r)) as [Heq|]; [|lia].
        destruct (HJ Heq) as [[_ ?]|[[? _]|[?|Hs]]]; try lia; try congruence.
        rewrite (dot_is_no_slash _ Hd0) in Hs. discriminate. }
      destruct (append_spec p out slash Hwf) as (Hwf1 & Hstr1 & Hw1); [lia|].
      split; [exact Hwf1|]. split; [lia|]. rewrite Hstr1. split.
      + rewrite double_slash_snoc, Hgood.
        destruct Hend as [?|[[? _]| ->]]; [lia|congruence|reflexivity].
      + right. apply last_is_slash_snoc.
    - apply Nat.ltb_ge in Hpos.
      split; [exact Hwf|]. split; [lia|]. split; [exact Hgood|]. left. lia. }
  destruct H1 as (Hwf1 & Hw1 & Hgood1 & _).
  destruct (append_spec p out1 dot Hwf1) as (Hwf2 & Hstr2 & Hw2); [lia|].
  destruct (append_spec p (append out1 dot) dot Hwf2) as (Hwf3 & Hstr3 & Hw3); [lia|].
  fold out3 in Hwf3, Hstr3, Hw3.
  assert (Hgood3 : double_slash (string_ out3) = false).
  { rewrite Hstr3, Hstr2, !double_slash_snoc, Hgood1.
    change (byte_eqb dot slash) with false. rewrite !andb_false_r. reflexivity. }
  assert (Hlast3 : last_is_slash (string_ out3) = false).
  { rewrite Hstr3. apply last_is_slash_snoc. }
  unfold clean_inv.
  split; [exact Hwf3|]. split; [lia|]. split; [lia|].
  split; [intros _; destruct Hnext as [<-|Hs]; auto|].
  split; [exact Hgood3|]. split; [auto|]. split; [lia|].
  right. right. rewrite take_ge; [exact Hlast3|].
  rewrite (length_string p out3 Hwf3). lia.
Qed.

(** A real element is copied, after a slash when the output needs
    one. *)
Lemma inv_element r dotdot out r' out' :
  inv r dotdot out -> (r < n)%nat -> byte_eqb (at_ p r) slash = false ->
  copy_element (n - r) p n r
    (if (rooted && negb (w out =? 1)%nat) || (negb rooted && negb (w out =? 0)%nat)
     then append out slash else out)
  = (r', out') ->
  inv r' dotdot out'.
Proof.
  intros (Hwf & Hr & Hw & HJ & Hgood & Hend & Hdd & Hddl) Hlt Hc.
  pose proof (length_string p out Hwf) as Hlen.
  set (out1 := if (rooted && negb (w out =? 1)%nat)
                  || (negb rooted && negb (w out =? 0)%nat)
               then append out slash else out).
  assert (H1 : lazybuf_wf p out1 /\ (w out <= w out1 <= r)%nat
               /\ double_slash (string_ out1) = false
               /\ exists pre, string_ out1 = (string_ out ++ pre)%list).
  { subst out1.
    destruct ((rooted && negb (w out =? 1)%nat)
              || (negb rooted && negb (w out =? 0)%nat)) eqn:Hcond.
    - assert (Hne : (w out < r)%nat).
      { destruct (decide (w out = r)) as [Heq|]; [|lia].
        destruct (HJ Heq) as [[Hroot H0]|[[Hroot H1]|[?|Hs]]];
          try lia; try congruence.
        - rewrite Hroot, Heq, H0 in Hcond. discriminate.
        - rewrite Hroot, Heq, H1 in Hcond. discriminate. }
      destruct (append_spec p out slash Hwf) as (Hwf1 & Hstr1 & Hw1); [lia|].
      split; [exact Hwf1|]. split; [lia|]. rewrite Hstr1.
      split; [|eexists; reflexivity].
      destruct Hend as [H0|[[Hroot H1]|Hlast]].
      + rewrite (string_nil out Hwf H0). reflexivity.
      + rewrite Hroot, H1 in Hcond. discriminate.
      + rewrite double_slash_snoc, Hgood, Hlast. reflexivity.
    - split; [exact Hwf|]. split; [lia|]. split; [exact Hgood|].
      exists []. rewrite app_nil_r. reflexivity. }
  destruct H1 as (Hwf1 & Hw1 & Hgood1 & pre & Hpre).
  intros Hcopy.
  destruct (copy_element_spec p (n - r) r out1 Hwf1) as
    (r2 & out2 & seg & Heq & Hwf2 & Hrr & Hww & Hstr & Hseg & Hne & Hstop);
    try lia.
  rewrite Hcopy in Heq. injection Heq as <- <-.
  destruct (double_slash_app_plain _ _ Hgood1 Hseg) as [Hgood2 Hlast2].
  rewrite <- Hstr in Hgood2, Hlast2.
  unfold clean_inv.
  split; [exact Hwf2|]. split; [lia|]. split; [lia|].
  split; [intros _; destruct Hstop as [->|Hs]; auto; lia|].
  split; [exact Hgood2|].
  split; [right; right; apply Hlast2, Hne; auto; lia|].
  split; [lia|].
  destruct Hddl as [->|[[Hroot ->]|Hlast]]; auto.
  right. right. rewrite Hstr, Hpre, <- app_assoc.
  rewrite take_app_le by lia. exact Hlast.
Qed.

(** The main loop ends with an output that has no two slashes in a
    row. *)
Lemma clean_loop_good : forall fuel r dotdot out,
  inv r dotdot out ->
  lazybuf_wf p (clean_loop fuel p n rooted r dotdot out)
  /\ double_slash (string_ (clean_loop fuel p n rooted r dotdot out)) = false.
Proof.
  induction fuel as [|fuel IH]; intros r dotdot out Hinv.
  { cbn. split; apply Hinv. }
  cbn [clean_loop].
  destruct (r <? n)%nat eqn:Hlt; cbn [negb]; [|split; apply Hinv].
  apply Nat.ltb_lt in Hlt.
  destruct (byte_eqb (at_ p r) slash) eqn:Hslash.
  { apply IH. apply (inv_skip r); auto; lia. }
  destruct (byte_eqb (at_ p r) dot
            && ((r + 1 =? n)%nat || byte_eqb (at_ p (r + 1)) slash)) eqn:Hone.
  { apply IH. apply (inv_skip r); auto; lia. }
  destruct (byte_eqb (at_ p r) dot && byte_eqb (at_ p (r + 1)) dot
            && ((r + 2 =? n)%nat || byte_eqb (at_ p (r + 2)) slash)) eqn:Htwo.
  - apply andb_true_iff in Htwo as [Hdots Hnext].
    apply andb_true_iff in Hdots as [Hd0 Hd1].
    assert (Hr1 : (r + 1 < n)%nat).
    { apply (at_in_range _ _ dot Hd1). discriminate. }
    destruct (dotdot <? w out)%nat eqn:Hback.
    + apply Nat.ltb_lt in Hback. apply IH.
      cbn [w set_w]. apply (inv_backtrack r); auto; lia.
    + apply Nat.ltb_ge in Hback.
      destruct (negb rooted) eqn:Hroot.
      * apply negb_true_iff in Hroot.
        apply IH. apply (inv_dotdot r dotdot out); auto; try lia.
        apply orb_true_iff in Hnext as [Hn|Hn]; [left|right; exact Hn].
        apply Nat.eqb_eq in Hn. exact Hn.
      * apply IH. apply (inv_skip r); auto; lia.
  - destruct (copy_element (n - r) p n r _) as [r' out'] eqn:Hcopy.
    apply IH. eapply inv_element; eauto.
Qed.

End CleanFacts.

Section JoinFacts.

Import path webhooks.

Lemma bytes_of_bytes l : bytes (of_bytes l) = l.
Proof. apply list_ascii_of_string_of_list_ascii. Qed.

Lemma bytes_app (s1 s2 : string) : bytes (s1 ++ s2) = (bytes s1 ++ bytes s2)%list.
Proof.
  induction s1 as [|a s1 IH]; [reflexivity|].
  change (bytes (String.String a s1 ++ s2)) with (a :: bytes (s1 ++ s2)).
  rewrite IH. reflexivity.
Qed.

(** What [Clean] returns: a single dot, or the bytes written to a
    buffer that is in order, not empty and without two slashes in a
    row. *)
Lemma Clean_cases (path : string) :
  Clean path = "."
  \/ exists out,
       lazybuf_wf (bytes path) out
       /\ w out <> 0%nat
       /\ double_slash (string_ out) = false
       /\ Clean path = of_bytes (string_ out).
Proof.
  unfold Clean.
  destruct (bytes path) as [|c rest] eqn:Hp; [left; reflexivity|].
  set (p := (c :: rest)).
  set (out0 := mkLazybuf p None 0).
  assert (Hwf0 : lazybuf_wf p out0).
  { unfold lazybuf_wf. cbn. split; [reflexivity|]. split; [lia|discriminate]. }
  assert (Hrun : forall rooted r dotdot out,
    clean_inv p rooted r dotdot out ->
    (if (w (clean_loop (length p) p (length p) rooted r dotdot out) =? 0)%nat
     then "."
     else of_bytes (string_ (clean_loop (length p) p (length p) rooted r dotdot out)))
    = "."
    \/ exists out',
         lazybuf_wf p out'
         /\ w out' <> 0%nat
         /\ double_slash (string_ out') = false
         /\ (if (w (clean_loop (length p) p (length p) rooted r dotdot out) =? 0)%nat
             then "."
             else of_bytes
                    (string_ (clean_loop (length p) p (length p) rooted r dotdot out)))
            = of_bytes (string_ out')).
  { intros rooted r dotdot out Hinv.
    destruct (clean_loop_good p rooted (length p) r dotdot out Hinv) as [Hwf Hgood].
    destruct (_ =? 0)%nat eqn:Hw; [left; reflexivity|].
    right. eexists. split; [exact Hwf|].
    split; [apply Nat.eqb_neq; exact Hw|]. split; [exact Hgood|reflexivity]. }
  destruct (byte_eqb c slash) eqn:Hroot.
  - apply Hrun.
    destruct (append_spec p out0 slash Hwf0) as (Hwf1 & Hstr1 & Hw1); [cbn; lia|].
    unfold clean_inv. rewrite Hstr1, Hw1. cbn [w out0 string_ buf take app].
    split; [exact Hwf1|]. split; [cbn; lia|]. split; [lia|].
    split; [auto|]. split; [reflexivity|]. split; [auto|]. split; [lia|]. auto.
  - apply Hrun. unfold clean_inv. cbn [w out0 string_ buf take].
    split; [exact Hwf0|]. split; [lia|]. split; [lia|].
    split; [auto|]. split; [reflexivity|]. split; [auto|]. split; [lia|]. auto.
Qed.

(** [Clean] never returns a path with two slashes in a row. *)
Lemma Clean_no_double_slash (path : string) :
  has_double_slash (Clean path) = false.
Proof.
  destruct (Clean_cases path) as [->|(out & _ & _ & Hgood & ->)]; [reflexivity|].
  unfold has_double_slash. rewrite bytes_of_bytes. exact Hgood.
Qed.

(** [Clean] never returns the empty string. *)
Lemma Clean_not_empty (path : string) : Clean path <> "".
Proof.
  destruct (Clean_cases path) as [->|(out & Hwf & Hw & _ & ->)]; [discriminate|].
  intros Hnil. apply (f_equal bytes) in Hnil. rewrite bytes_of_bytes in Hnil.
  apply (f_equal (@length ascii)) in Hnil.
  rewrite (length_string _ _ Hwf) in Hnil. cbn in Hnil. contradiction.
Qed.

Lemma Join_no_double_slash (elem : list string) :
  has_double_slash (Join elem) = false.
Proof.
  unfold Join. destruct (_ =? 0)%nat; [reflexivity|].
  apply Clean_no_double_slash.
Qed.

(** Whatever the server URL and the host, the URL of a failing host has
    no two slashes in a row. *)
Theorem host_url_has_no_double_slash host fleetServerURL :
  has_double_slash (URL (makeFailingHost host fleetServerURL)) = false.
Proof. apply Join_no_double_slash. Qed.

(** Whatever the server URL, empty or not, the URL of a failing host is
    not empty. *)
Theorem host_url_is_not_empty host fleetServerURL :
  URL (makeFailingHost host fleetServerURL) <> "".
Proof.
  cbn [URL makeFailingHost]. unfold Join. cbn [foldl].
  destruct (_ =? 0)%nat eqn:Hsize; [|apply Clean_not_empty].
  apply Nat.eqb_eq in Hsize. cbn in Hsize. lia.
Qed.

(** For a server URL that has two slashes in a row, as one with a
    scheme has, the URL of a failing host is never the server URL
    followed by [/hosts/] and the host identifier. *)
Theorem host_url_differs_for_scheme host fleetServerURL :
  has_double_slash fleetServerURL = true ->
  URL (makeFailingHost host fleetServerURL)
  <> fleetServerURL ++ "/hosts/" ++ strconv.Itoa (int_of_uint (service.ID host)).
Proof.
  intros Hurl Heq.
  pose proof (host_url_has_no_double_slash host fleetServerURL) as Hnone.
  rewrite Heq in Hnone. unfold has_double_slash in *.
  rewrite bytes_app, (double_slash_app_l _ _ Hurl) in Hnone. discriminate.
Qed.

Lemma host_url_differs_for_scheme_witness :
  has_double_slash "https://fleet.example.com" = true
  /\ URL (makeFailingHost (service.mkPolicySetHost 42 "alice-laptop")
            "https://fleet.example.com")
     <> "https://fleet.example.com" ++ "/hosts/"
        ++ strconv.Itoa (int_of_uint
                           (service.ID (service.mkPolicySetHost 42 "alice-laptop"))).
Proof.
  assert (H1 : has_double_slash "https://fleet.example.com" = true)
    by (vm_compute; reflexivity).
  exact (conj H1
    (host_url_differs_for_scheme (service.mkPolicySetHost 42 "alice-laptop")
       "https://fleet.example.com" H1)).
Defined.

End JoinFacts.

(** ** Command [fleetctl]: the client and its configuration *)
Section FleetctlFacts.

Import fleetctl.

Context {Client Any Writer W : Type}.
Variable proc : Process.
Variable d : Deps Client Any Writer W.

Local Abbreviation Effect := (effect Client Writer).

Ltac run :=
  unfold clientFromCLI, unauthenticatedClientFromCLI, unauthenticatedClientFromConfig,
    clientConfigFromCLI, authenticate, setToken, Fprintln_Stderr, Fprintf_Stderr,
    bind, call, act, ret, panic;
  cbn beta iota.

Ltac branch :=
  match goal with
  | |- context [match ?x with _ => _ end] => destruct x eqn:?
  | |- context [if ?x then _ else _] => destruct x eqn:?
  end.

(** Outside of tests, [unauthenticatedClientFromConfig] calls
    [service.NewClient] exactly when the context has an address and, on
    Windows, a root CA or the permission to skip verification: then
    once, with the four fields of the context and the writer option,
    followed by the debug option when debugging is on; otherwise it
    touches nothing and returns an error.  It never returns a client
    together with an error. *)
Theorem config_client_is_built_only_from_a_usable_context cc debug wr w tr :
  testing proc = false ->
  exists r w' evs,
    unauthenticatedClientFromConfig proc d cc debug wr (w, tr)
    = (Done r, (w', (tr ++ evs)%list))
    /\ (if usable proc cc
        then evs = [DidNewClient (Address cc) (TLSSkipVerify cc) (RootCA cc)
                      (URLPrefix cc)
                      (SetClientWriter wr :: if debug then [EnableClientDebug] else [])]
        else evs = [] /\ w' = w /\ is_Some (snd r))
    /\ (is_Some (snd r) -> fst r = None).
Proof.
  intros Htest. run. unfold usable. rewrite Htest.
  destruct (String.eqb (Address cc) "") eqn:Haddr; cbn [negb andb].
  { eexists _, w, []. rewrite app_nil_r.
    split; [reflexivity|]. cbn. split; [|reflexivity]. eauto. }
  destruct (String.eqb (GOOS proc) "windows" && String.eqb (RootCA cc) ""
            && negb (TLSSkipVerify cc)) eqn:Hwin; cbn [negb].
  { eexists _, w, []. rewrite app_nil_r.
    split; [reflexivity|]. cbn. split; [|reflexivity]. eauto. }
  destruct debug; cbn [app];
    destruct (NewClient d _ _ _ _ _ w) as [[fleet [e|]] w1];
    eexists _, w1, _; (split; [reflexivity|]); cbn;
    (split; [reflexivity|]); auto; intros [? [=]].
Qed.

(** [clientConfigFromCLI] returns the zero context with every error; it
    makes sure the configuration file exists before it reads it, and
    reads it only then; a [nil] error outside of tests means that the
    context returned is the one the file read holds under the name
    given by the flag.  Under test it touches no file. *)
Theorem config_context_comes_from_the_file c w tr :
  exists cc err w' evs,
    clientConfigFromCLI proc d c (w, tr) = (Done (cc, err), (w', (tr ++ evs)%list))
    /\ (is_Some err -> cc = zeroCtx)
    /\ evs `prefix_of` [DidMakeConfig (String_ c "config");
                        DidReadConfig (String_ c "config")]
    /\ (testing proc = true -> evs = [] /\ w' = w /\ err = None)
    /\ (testing proc = false -> err = None ->
        exists w1 config,
          makeConfigIfNotExists d (String_ c "config") w = (None, w1)
          /\ readConfig d (String_ c "config") w1 = ((config, None), w')
          /\ Contexts config !! String_ c "context" = Some cc).
Proof.
  run. destruct (testing proc) eqn:Htest.
  { eexists _, _, w, []. rewrite app_nil_r. split; [reflexivity|].
    split; [intros [? [=]]|]. split; [apply prefix_nil|].
    split; [auto|discriminate]. }
  destruct (makeConfigIfNotExists d _ w) as [[e|] w1] eqn:Hmake.
  { eexists _, _, w1, _. split; [reflexivity|].
    split; [reflexivity|]. split; [exists [DidReadConfig (String_ c "config")]; reflexivity|].
    split; [discriminate|]. intros _ [=]. }
  destruct (readConfig d _ w1) as [[config [e|]] w2] eqn:Hread;
    rewrite <- app_assoc; cbn [app].
  { eexists _, _, w2, _. split; [reflexivity|].
    split; [reflexivity|]. split; [reflexivity|].
    split; [discriminate|]. intros _ [=]. }
  destruct (Contexts config !! String_ c "context") as [cc|] eqn:Hctx.
  - eexists _, _, w2, _. split; [reflexivity|].
    split; [intros [? [=]]|]. split; [reflexivity|].
    split; [discriminate|]. intros _ _. eauto.
  - eexists _, _, w2, _. split; [reflexivity|].
    split; [reflexivity|]. split; [reflexivity|].
    split; [discriminate|]. intros _ [=].
Qed.

(** [authenticate] does one of the things [client_tail] lists. *)
Lemma authenticate_shape c fleet w tr :
  exists o w' post,
    authenticate proc d c fleet (w, tr) = (o, (w', (tr ++ post)%list))
    /\ client_tail proc d c o post.
Proof.
  run.
  destruct (negb (IsSet c "config") && testing proc) eqn:Htest.
  { apply andb_true_iff in Htest as [Hset Htest]. apply negb_true_iff in Hset.
    destruct fleet as [cl|].
    - eexists _, _, _. split; [reflexivity|]. constructor; assumption.
    - eexists _, _, []. rewrite app_nil_r. split; [reflexivity|].
      constructor; assumption. }
  destruct (getConfigValue d _ _ _ w) as [[t [e|]] w1].
  { eexists _, _, _. split; [reflexivity|]. constructor. exact Htest. }
  destruct (asString d t) as [token|].
  2: { eexists _, _, _. rewrite <- app_assoc. split; [reflexivity|].
       constructor. exact Htest. }
  destruct (String.eqb token "") eqn:Htok.
  { eexists _, _, _. rewrite <- app_assoc. split; [reflexivity|].
    constructor. exact Htest. }
  apply String.eqb_neq in Htok.
  destruct fleet as [cl|].
  2: { eexists _, _, _. split; [reflexivity|]. constructor. exact Htest. }
  destruct (Version d cl _) as [[serverInfo [e|]] w2] eqn:Hver.
  - destruct (is_ErrUnauthenticated d e) eqn:Hun;
      eexists _, _, _; rewrite <- !app_assoc; (split; [reflexivity|]);
      pose proof (tail_version_error proc d c cl token serverInfo e Htest Htok)
        as Htail;
      rewrite Hun in Htail; exact Htail.
  - destruct serverInfo as [serverVersion|].
    + destruct (negb (String.eqb (version_Version d) serverVersion)) eqn:Hsame;
        eexists _, _, _; rewrite <- !app_assoc; (split; [reflexivity|]);
        pose proof (tail_ok proc d c cl token serverVersion Htest Htok) as Htail;
        rewrite Hsame in Htail; exact Htail.
    + eexists _, _, _. rewrite <- !app_assoc. split; [reflexivity|].
      constructor; assumption.
Qed.

(** Building the client looks after the configuration file and
    constructs the client, nothing else; under test it touches no
    file. *)
Lemma unauthenticated_shape c w tr :
  exists r w' pre,
    unauthenticatedClientFromCLI proc d c (w, tr) = (Done r, (w', (tr ++ pre)%list))
    /\ Forall (fun ef => is_setup ef = true) pre
    /\ (testing proc = true -> Forall (fun ef => is_file ef = false) pre).
Proof.
  unfold unauthenticatedClientFromCLI, bind.
  destruct (config_context_comes_from_the_file c w tr)
    as (cc & err & w1 & evs & -> & _ & Hpre & Htest & _).
  assert (Hevs : Forall (fun ef : Effect => is_setup ef = true) evs).
  { destruct Hpre as [k Hk]. destruct evs as [|a [|b [|x evs]]];
      cbn in Hk; simplify_eq; repeat constructor. }
  destruct err as [e|].
  { eexists _, _, _. unfold ret. split; [reflexivity|]. split; [exact Hevs|].
    intros Ht. destruct (Htest Ht) as (-> & _). constructor. }
  unfold unauthenticatedClientFromConfig, bind, call, ret.
  destruct (testing proc) eqn:Ht.
  { destruct (Htest eq_refl) as (-> & -> & _).
    destruct (NewClient d _ _ _ _ _ w) as [r w2].
    eexists _, _, _. rewrite <- app_assoc. split; [reflexivity|].
    split; [repeat constructor|]. intros _. repeat constructor. }
  destruct (String.eqb (Address cc) "").
  { eexists _, _, _. split; [reflexivity|]. split; [exact Hevs|discriminate]. }
  destruct (String.eqb (GOOS proc) "windows" && String.eqb (RootCA cc) ""
            && negb (TLSSkipVerify cc)).
  { eexists _, _, _. split; [reflexivity|]. split; [exact Hevs|discriminate]. }
  destruct (NewClient d _ _ _ _ _ w1) as [[fleet [e|]] w2];
    eexists _, _, _; rewrite <- app_assoc; (split; [reflexivity|]);
    (split; [|discriminate]); apply Forall_app; split; auto; repeat constructor.
Qed.

(** [clientFromCLI] builds the client, then hands it to
    [authenticate], or returns the error of the building. *)
Lemma clientFromCLI_shape c w tr :
  exists o w' pre post,
    clientFromCLI proc d c (w, tr) = (o, (w', (tr ++ pre ++ post)%list))
    /\ Forall (fun ef => is_setup ef = true) pre
    /\ (testing proc = true -> Forall (fun ef => is_file ef = false) pre)
    /\ ((exists e, o = Done (None, Some e) /\ post = [])
        \/ client_tail proc d c o post).
Proof.
  unfold clientFromCLI, bind.
  destruct (unauthenticated_shape c w tr) as ([fleet err] & w1 & pre & -> & Hpre & Ht).
  destruct err as [e|].
  - exists (Done (None, Some e)), w1, pre, []. rewrite app_nil_r.
    unfold ret. split; [reflexivity|]. split; [exact Hpre|]. split; [exact Ht|].
    left. eauto.
  - destruct (authenticate_shape c fleet w1 (tr ++ pre)%list)
      as (o & w2 & post & -> & Htail).
    exists o, w2, pre, post. rewrite <- app_assoc.
    split; [reflexivity|]. split; [exact Hpre|]. split; [exact Ht|]. right. exact Htail.
Qed.

Lemma setup_is_quiet (pre : list Effect) :
  Forall (fun ef => is_setup ef = true) pre ->
  List.filter is_stderr pre = []
  /\ (forall cl res, DidVersion cl res ∉ pre)
  /\ (forall cl token, DidSetToken cl token ∉ pre)
  /\ Forall (fun ef => is_server ef = false /\ is_stderr ef = false) pre.
Proof.
  induction 1 as [|ef pre Hef Hpre (Hfil & Hver & Htok & Hall)].
  - repeat split; try constructor; intros; apply not_elem_of_nil.
  - repeat split.
    + cbn. destruct ef; try discriminate; exact Hfil.
    + intros cl res Hin. apply elem_of_cons in Hin as [<-|Hin]; [discriminate|].
      exact (Hver _ _ Hin).
    + intros cl token Hin. apply elem_of_cons in Hin as [<-|Hin]; [discriminate|].
      exact (Htok _ _ Hin).
    + constructor; [destruct ef; try discriminate; auto|exact Hall].
Qed.

(** [clientFromCLI] returns a client or an error, never both and never
    neither. *)
Theorem client_or_error c st cl err st' :
  clientFromCLI proc d c st = (Done (cl, err), st') ->
  (is_Some cl /\ err = None) \/ (cl = None /\ is_Some err).
Proof.
  destruct st as [w tr]. intros Hrun.
  destruct (clientFromCLI_shape c w tr) as (o & w' & pre & post & Heq & _ & _ & Hend).
  rewrite Hrun in Heq. injection Heq as <- _.
  destruct Hend as [(e & [= -> ->] & _)|Htail]; [right; eauto|].
  inversion Htail; subst; eauto.
Qed.

(** The server is asked for its version only right after a token that
    is not empty was set on the same client; no empty token is ever
    set. *)
Theorem server_is_asked_with_a_token c w tr o w' tr' :
  clientFromCLI proc d c (w, tr) = (o, (w', tr')) ->
  exists evs,
    tr' = (tr ++ evs)%list
    /\ (forall cl token, DidSetToken cl token ∈ evs -> token <> "")
    /\ (forall cl res,
          DidVersion cl res ∈ evs ->
          exists before after token,
            evs = (before ++ [DidSetToken cl token; DidVersion cl res] ++ after)%list
            /\ token <> "").
Proof.
  intros Hrun.
  destruct (clientFromCLI_shape c w tr) as (o' & w1 & pre & post & Heq & Hpre & _ & Hend).
  rewrite Hrun in Heq. injection Heq as -> -> ->.
  destruct (setup_is_quiet pre Hpre) as (_ & Hnover & Hnotok & _).
  exists (pre ++ post)%list. split; [reflexivity|].
  destruct Hend as [(e & _ & ->)|Htail].
  { rewrite app_nil_r. split.
    - intros cl token Hin. destruct (Hnotok _ _ Hin).
    - intros cl res Hin. destruct (Hnover _ _ Hin). }
  split.
  - intros cl token Hin. apply elem_of_app in Hin as [Hin|Hin];
      [destruct (Hnotok _ _ Hin)|].
    inversion Htail; subst;
      repeat match goal with
             | H : _ ∈ (_ ++ _)%list |- _ => apply elem_of_app in H as [H|H]
             | H : _ ∈ _ :: _ |- _ => apply elem_of_cons in H as [H|H]
             | H : _ ∈ [] |- _ => destruct (not_elem_of_nil _ H)
             | H : _ ∈ (if ?b then _ else _) |- _ => destruct b
             | H : DidSetToken _ _ = _ |- _ => inversion H; subst; clear H
             end; try assumption; discriminate.
  - intros cl res Hin. apply elem_of_app in Hin as [Hin|Hin];
      [destruct (Hnover _ _ Hin)|].
    inversion Htail; subst;
      repeat match goal with
             | H : _ ∈ (_ ++ _)%list |- _ => apply elem_of_app in H as [H|H]
             | H : _ ∈ _ :: _ |- _ => apply elem_of_cons in H as [H|H]
             | H : _ ∈ [] |- _ => destruct (not_elem_of_nil _ H)
             | H : _ ∈ (if ?b then _ else _) |- _ => destruct b
             | H : DidVersion _ _ = _ |- _ => inversion H; subst; clear H
             end;
      eexists (pre ++ [_])%list, _, _; rewrite <- !app_assoc;
      (split; [reflexivity|assumption]).
Qed.

(** The answer of the server decides: when it gives its version,
    whatever the version, the client is returned, with a warning on
    standard error exactly when the version differs from the client's;
    when it gives an error, that error is returned as it is, with a
    line on standard error exactly when it is an authentication
    error. *)
Theorem version_answer_decides c w tr o w' evs :
  clientFromCLI proc d c (w, tr) = (o, (w', (tr ++ evs)%list)) ->
  (forall cl serverVersion,
     DidVersion cl (Some serverVersion, None) ∈ evs ->
     o = Done (Some cl, None)
     /\ List.filter is_stderr evs
        = if String.eqb (version_Version d) serverVersion then []
          else [Stderr (mismatch_warning (version_Version d) serverVersion)])
  /\ (forall cl serverInfo e,
        DidVersion cl (serverInfo, Some e) ∈ evs ->
        o = Done (None, Some e)
        /\ List.filter is_stderr evs
           = if is_ErrUnauthenticated d e
             then [Stderr ("Token invalid or session expired. Please log in with: fleetctl login"
                           ++ nl)]
             else []).
Proof.
  intros Hrun.
  destruct (clientFromCLI_shape c w tr) as (o' & w1 & pre & post & Heq & Hpre & _ & Hend).
  rewrite Hrun in Heq. injection Heq as -> -> Hevs.
  apply app_inv_head in Hevs. subst evs.
  destruct (setup_is_quiet pre Hpre) as (Hfil & Hnover & _ & _).
  rewrite List.filter_app, Hfil. cbn [app].
  split.
  - intros cl sv Hin. apply elem_of_app in Hin as [Hin|Hin];
      [destruct (Hnover _ _ Hin)|].
    destruct Hend as [(e & _ & ->)|Htail]; [destruct (not_elem_of_nil _ Hin)|].
    inversion Htail; subst;
      repeat match goal with
             | H : _ ∈ (_ ++ _)%list |- _ => apply elem_of_app in H as [H|H]
             | H : _ ∈ _ :: _ |- _ => apply elem_of_cons in H as [H|H]
             | H : _ ∈ [] |- _ => destruct (not_elem_of_nil _ H)
             | H : _ ∈ (if ?b then _ else _) |- _ => destruct b
             | H : DidVersion _ _ = _ |- _ => inversion H; subst; clear H
             end; try discriminate.
    split; [reflexivity|].
    match goal with
    | |- context [String.eqb ?a ?b] => destruct (String.eqb a b)
    end; reflexivity.
  - intros cl sv e Hin. apply elem_of_app in Hin as [Hin|Hin];
      [destruct (Hnover _ _ Hin)|].
    destruct Hend as [(e' & _ & ->)|Htail]; [destruct (not_elem_of_nil _ Hin)|].
    inversion Htail; subst;
      repeat match goal with
             | H : _ ∈ (_ ++ _)%list |- _ => apply elem_of_app in H as [H|H]
             | H : _ ∈ _ :: _ |- _ => apply elem_of_cons in H as [H|H]
             | H : _ ∈ [] |- _ => destruct (not_elem_of_nil _ H)
             | H : _ ∈ (if ?b then _ else _) |- _ => destruct b
             | H : DidVersion _ _ = _ |- _ => inversion H; subst; clear H
             end; try discriminate.
    split; [reflexivity|].
    match goal with
    | |- context [is_ErrUnauthenticated d ?a] => destruct (is_ErrUnauthenticated d a)
    end; reflexivity.
Qed.

(** Under test and without a [config] flag, [clientFromCLI] reads no
    configuration file, asks no server and writes nothing to standard
    error; the only token it sets is [AAAA]. *)
Theorem test_client_stays_offline c w tr o w' evs :
  testing proc = true -> IsSet c "config" = false ->
  clientFromCLI proc d c (w, tr) = (o, (w', (tr ++ evs)%list)) ->
  Forall (fun ef => is_file ef = false /\ is_server ef = false /\ is_stderr ef = false)
    evs
  /\ (forall cl token, DidSetToken cl token ∈ evs -> token = "AAAA").
Proof.
  intros Htest Hset Hrun.
  destruct (clientFromCLI_shape c w tr) as (o' & w1 & pre & post & Heq & Hpre & Hfile & Hend).
  rewrite Hrun in Heq. injection Heq as -> -> Hevs.
  apply app_inv_head in Hevs. subst evs.
  destruct (setup_is_quiet pre Hpre) as (_ & _ & Hnotok & Hquiet).
  specialize (Hfile Htest).
  assert (Hpre3 : Forall (fun ef : Effect =>
            is_file ef = false /\ is_server ef = false /\ is_stderr ef = false) pre).
  { apply Forall_forall. intros ef Hin.
    rewrite Forall_forall in Hfile, Hquiet.
    destruct (Hquiet ef Hin). auto. }
  assert (Hguard : negb (IsSet c "config") && testing proc = true)
    by (rewrite Htest, Hset; reflexivity).
  destruct Hend as [(e & _ & ->)|Htail].
  { rewrite app_nil_r. split; [exact Hpre3|].
    intros cl token Hin. destruct (Hnotok _ _ Hin). }
  inversion Htail; subst; try congruence.
  - split; [apply Forall_app; split; [exact Hpre3|repeat constructor]|].
    intros cl' token Hin. apply elem_of_app in Hin as [Hin|Hin];
      [destruct (Hnotok _ _ Hin)|].
    apply elem_of_cons in Hin as [Hin|Hin]; [congruence|].
    destruct (not_elem_of_nil _ Hin).
  - rewrite app_nil_r. split; [exact Hpre3|].
    intros cl token Hin. destruct (Hnotok _ _ Hin).
Qed.

End FleetctlFacts.

Section RawFacts.

Import fleetctl.

Context {URL CertPool HTTPClient Bytes W : Type}.
Variable proc : Process.
Variable rd : RawDeps URL CertPool HTTPClient Bytes W.

(** [rawHTTPClientFromConfig] returns no client and no URL with an
    error; it reads the root CA file only when the context names one,
    and at most that file; the client it returns verifies certificates
    unless the context says otherwise, against the pool read from that
    file when there is one and against none of its own otherwise. *)
Theorem raw_client_reads_the_root_CA_only_when_set cc w reads cl url err w' reads' :
  rawHTTPClientFromConfig proc rd cc (w, reads) = ((cl, url, err), (w', reads')) ->
  (is_Some err -> cl = None /\ url = None)
  /\ (RootCA cc = "" -> w' = w /\ reads' = reads)
  /\ (reads' = reads \/ reads' = (reads ++ [RootCA cc])%list)
  /\ (err = None ->
      exists pool,
        cl = Some (fleethttp_NewClient rd
                     {| InsecureSkipVerify := TLSSkipVerify cc; RootCAs := pool |})
        /\ (RootCA cc = "" -> pool = None)
        /\ (RootCA cc <> "" -> is_Some pool /\ reads' = (reads ++ [RootCA cc])%list)).
Proof.
  unfold rawHTTPClientFromConfig.
  set (cc' := if testing proc then _ else cc).
  assert (Hca : RootCA cc' = RootCA cc) by (subst cc'; destruct (testing proc); reflexivity).
  assert (Htls : TLSSkipVerify cc' = TLSSkipVerify cc)
    by (subst cc'; destruct (testing proc); reflexivity).
  rewrite Hca, Htls. clearbody cc'.
  destruct (url_Parse rd (Address cc')) as [baseURL [e|]].
  { intros [= <- <- <- <- <-]. repeat split; auto; discriminate. }
  destruct (String.eqb (RootCA cc) "") eqn:Hset; cbn [negb].
  { apply String.eqb_eq in Hset. intros [= <- <- <- <- <-].
    split; [intros [? [=]]|]. split; [auto|]. split; [auto|].
    intros _. exists None. split; [reflexivity|]. split; [auto|]. congruence. }
  apply String.eqb_neq in Hset.
  destruct (ReadFile rd (RootCA cc) w) as [[certs [e|]] w1].
  { intros [= <- <- <- <- <-]. repeat split; auto; try discriminate; congruence. }
  destruct (AppendCertsFromPEM rd certs) as [rootCA [|]]; cbn [negb];
    intros [= <- <- <- <- <-].
  - split; [intros [? [=]]|]. split; [congruence|]. split; [auto|].
    intros _. exists (Some rootCA). split; [reflexivity|]. split; [congruence|]. eauto.
  - repeat split; auto; try discriminate; congruence.
Qed.

End RawFacts.

(** ** The command on a concrete command line *)
Section CliRuns.

Import fleetctl cli_scenario.

Lemma config_client_is_built_only_from_a_usable_context_witness :
  testing linux = false
  /\ exists r w' evs,
       unauthenticatedClientFromConfig linux behind home true tt (0%nat, [])
       = (Done r, (w', ([] ++ evs)%list))
       /\ (if usable linux home
           then evs = [DidNewClient (Address home) (TLSSkipVerify home) (RootCA home)
                         (URLPrefix home)
                         (SetClientWriter tt :: if true then [EnableClientDebug] else [])]
           else evs = [] /\ w' = 0%nat /\ is_Some (snd r))
       /\ (is_Some (snd r) -> fst r = None).
Proof.
  assert (H1 : testing linux = false) by reflexivity.
  exact (conj H1
    (config_client_is_built_only_from_a_usable_context linux behind home true tt
       0%nat [] H1)).
Defined.

Lemma client_or_error_witness :
  clientFromCLI linux behind cmdline (0%nat, [])
  = (Done (Some "https://fleet.example.com", None), (1%nat, behind_run))
  /\ ((is_Some (Some "https://fleet.example.com") /\ @None error = None)
      \/ (Some "https://fleet.example.com" = None /\ is_Some (@None error))).
Proof.
  assert (H1 : clientFromCLI linux behind cmdline (0%nat, [])
               = (Done (Some "https://fleet.example.com", None), (1%nat, behind_run)))
    by (vm_compute; reflexivity).
  exact (conj H1
    (client_or_error linux behind cmdline (0%nat, [])
       (Some "https://fleet.example.com") None (1%nat, behind_run) H1)).
Defined.

Lemma server_is_asked_with_a_token_witness :
  clientFromCLI linux behind cmdline (0%nat, [])
  = (Done (Some "https://fleet.example.com", None), (1%nat, behind_run))
  /\ exists evs,
       behind_run = ([] ++ evs)%list
       /\ (forall cl token, DidSetToken cl token ∈ evs -> token <> "")
       /\ (forall cl res,
             DidVersion cl res ∈ evs ->
             exists before after token,
               evs = (before ++ [DidSetToken cl token; DidVersion cl res] ++ after)%list
               /\ token <> "").
Proof.
  assert (H1 : clientFromCLI linux behind cmdline (0%nat, [])
               = (Done (Some "https://fleet.example.com", None), (1%nat, behind_run)))
    by (vm_compute; reflexivity).
  exact (conj H1
    (server_is_asked_with_a_token linux behind cmdline 0%nat []
       (Done (Some "https://fleet.example.com", None)) 1%nat behind_run H1)).
Defined.

Lemma version_answer_decides_witness :
  clientFromCLI linux behind cmdline (0%nat, [])
  = (Done (Some "https://fleet.example.com", None), (1%nat, ([] ++ behind_run)%list))
  /\ (forall cl serverVersion,
        DidVersion cl (Some serverVersion, None) ∈ behind_run ->
        Done (Some "https://fleet.example.com", @None error) = Done (Some cl, None)
        /\ List.filter is_stderr behind_run
           = if String.eqb (version_Version behind) serverVersion then []
             else [Stderr (mismatch_warning (version_Version behind) serverVersion)])
  /\ (forall cl serverInfo e,
        DidVersion cl (serverInfo, Some e) ∈ behind_run ->
        Done (Some "https://fleet.example.com", @None error) = Done (None, Some e)
        /\ List.filter is_stderr behind_run
           = if is_ErrUnauthenticated behind e
             then [Stderr ("Token invalid or session expired. Please log in with: fleetctl login"
                           ++ nl)]
             else []).
Proof.
  assert (H1 : clientFromCLI linux behind cmdline (0%nat, [])
               = (Done (Some "https://fleet.example.com", None),
                  (1%nat, ([] ++ behind_run)%list)))
    by (vm_compute; reflexivity).
  exact (conj H1
    (version_answer_decides linux behind cmdline 0%nat []
       (Done (Some "https://fleet.example.com", None)) 1%nat behind_run H1)).
Defined.

Lemma test_client_stays_offline_witness :
  testing under_test = true
  /\ IsSet cmdline "config" = false
  /\ clientFromCLI under_test behind cmdline (0%nat, [])
     = (Done (Some "https://127.0.0.1:8080", None), (0%nat, ([] ++ test_run)%list))
  /\ Forall (fun ef => is_file ef = false /\ is_server ef = false
                       /\ is_stderr ef = false) test_run
  /\ (forall cl token, DidSetToken cl token ∈ test_run -> token = "AAAA").
Proof.
  assert (H1 : testing under_test = true) by reflexivity.
  assert (H2 : IsSet cmdline "config" = false) by reflexivity.
  assert (H3 : clientFromCLI under_test behind cmdline (0%nat, [])
               = (Done (Some "https://127.0.0.1:8080", None),
                  (0%nat, ([] ++ test_run)%list)))
    by (vm_compute; reflexivity).
  exact (conj H1 (conj H2 (conj H3
    (test_client_stays_offline under_test behind cmdline 0%nat []
       (Done (Some "https://127.0.0.1:8080", None)) 0%nat test_run H1 H2 H3)))).
Defined.

Lemma raw_client_reads_the_root_CA_only_when_set_witness :
  rawHTTPClientFromConfig linux rawDeps secured (0%nat, [])
  = ((Some {| InsecureSkipVerify := false; RootCAs := Some "/etc/fleet/ca.pem" |},
      Some "https://fleet.example.com", None),
     (1%nat, ["/etc/fleet/ca.pem"]))
  /\ (is_Some (@None error) ->
      Some {| InsecureSkipVerify := false; RootCAs := Some "/etc/fleet/ca.pem" |} = None
      /\ Some "https://fleet.example.com" = None)
  /\ (RootCA secured = "" -> 1%nat = 0%nat /\ ["/etc/fleet/ca.pem"] = [])
  /\ (["/etc/fleet/ca.pem"] = [] \/ ["/etc/fleet/ca.pem"] = ([] ++ [RootCA secured])%list)
  /\ (@None error = None ->
      exists pool,
        Some {| InsecureSkipVerify := false; RootCAs := Some "/etc/fleet/ca.pem" |}
        = Some (fleethttp_NewClient rawDeps
                  {| InsecureSkipVerify := TLSSkipVerify secured; RootCAs := pool |})
        /\ (RootCA secured = "" -> pool = None)
        /\ (RootCA secured <> "" ->
            is_Some pool /\ ["/etc/fleet/ca.pem"] = ([] ++ [RootCA secured])%list)).
Proof.
  assert (H1 : rawHTTPClientFromConfig linux rawDeps secured (0%nat, [])
               = ((Some {| InsecureSkipVerify := false;
                           RootCAs := Some "/etc/fleet/ca.pem" |},
                   Some "https://fleet.example.com", None),
                  (1%nat, ["/etc/fleet/ca.pem"])))
    by (vm_compute; reflexivity).
  exact (conj H1
    (raw_client_reads_the_root_CA_only_when_set linux rawDeps secured 0%nat []
       (Some {| InsecureSkipVerify := false; RootCAs := Some "/etc/fleet/ca.pem" |})
       (Some "https://fleet.example.com") None 1%nat ["/etc/fleet/ca.pem"] H1)).
Defined.

End CliRuns.

(** ** No host leaves a failing set unreported *)
Section NoLoss.

Import fleet webhooks.

Context {PolicyT TimeT W : Type}.
Variable c : Collaborators PolicyT TimeT W.
Variables (appConfig : AppConfig) (now : TimeT).

(** What the failing set of each policy holds, in a world. *)
Variable members : W -> uint -> list service.PolicySetHost.

(** The contract the cycle relies on: looking up a policy, listing a
    set and posting remove no member, and [RemoveHosts] removes from
    the set of its policy no host but those whose identifiers it was
    given. *)
Hypothesis policy_keeps : forall policyID w r w',
  ds_Policy c policyID w = (r, w') ->
  forall p h, h ∈ members w p -> h ∈ members w' p.
Hypothesis list_keeps : forall policyID w r w',
  set_ListHosts c policyID w = (r, w') ->
  forall p h, h ∈ members w p -> h ∈ members w' p.
Hypothesis post_keeps : forall url payload w r w',
  PostJSONWithTimeout c url payload w = (r, w') ->
  forall p h, h ∈ members w p -> h ∈ members w' p.
Hypothesis remove_only : forall policyID hosts w r w',
  set_RemoveHosts c policyID hosts w = (r, w') ->
  forall p h, h ∈ members w p ->
    h ∈ members w' p \/ (p = policyID /\ service.ID h ∈ map service.ID hosts).

Lemma payload_ids (policy : option PolicyT) hosts :
  map ID (FailingHosts (payload_of appConfig now policy hosts))
  = map service.ID hosts.
Proof.
  unfold payload_of. cbn [FailingHosts].
  rewrite fillFailingHosts_map, map_map. reflexivity.
Qed.

Lemma iteration_no_loss policyID w tr f w' tr' :
  iteration c appConfig now policyID (w, tr) = (f, (w', tr')) ->
  exists evs,
    tr' = (tr ++ evs)%list
    /\ forall p h, h ∈ members w p -> h ∈ members w' p \/ reported evs h.
Proof.
  rewrite iteration_eq.
  destruct (ds_Policy c policyID w) as [[policy [e|]] w1] eqn:HP; cbn.
  { destruct (errors.Is_ErrNoRows e); intros [= <- <- <-];
      eexists; (split; [reflexivity|]); intros p h Hh; left; eauto. }
  destruct (set_ListHosts c policyID w1) as [[hosts [e|]] w2] eqn:HL; cbn.
  { intros [= <- <- <-]. rewrite <- app_assoc.
    eexists; (split; [reflexivity|]); intros p h Hh; left; eauto. }
  destruct (PostJSONWithTimeout c _ _ w2) as [[e|] w3] eqn:HD; cbn.
  { intros [= <- <- <-]. rewrite <- !app_assoc.
    eexists; (split; [reflexivity|]); intros p h Hh; left; eauto. }
  destruct (set_RemoveHosts c policyID hosts w3) as [res w4] eqn:HR; cbn.
  assert (Hkeep : forall p h, h ∈ members w p ->
            h ∈ members w4 p
            \/ reported [EvPolicy policyID (policy, None);
                         EvListHosts policyID (hosts, None);
                         EvPost (destination appConfig)
                           (payload_of appConfig now policy hosts) None;
                         EvRemoveHosts policyID hosts res] h).
  { intros p h Hh.
    assert (H3 : h ∈ members w3 p) by eauto.
    destruct (remove_only _ _ _ _ _ HR p h H3) as [Hin|[-> Hid]]; [left; exact Hin|].
    right. exists (destination appConfig), (payload_of appConfig now policy hosts).
    split; [|rewrite payload_ids; exact Hid].
    do 2 apply list_elem_of_further. apply list_elem_of_here. }
  destruct res; intros [= <- <- <-]; rewrite <- !app_assoc;
    eexists; (split; [reflexivity|]); exact Hkeep.
Qed.

Lemma range_no_loss policyIDs : forall w tr r w' tr',
  range c appConfig now policyIDs (w, tr) = (r, (w', tr')) ->
  exists evs,
    tr' = (tr ++ evs)%list
    /\ forall p h, h ∈ members w p -> h ∈ members w' p \/ reported evs h.
Proof.
  induction policyIDs as [|policyID rest IH]; intros w tr r w' tr'.
  - cbn. unfold ret. intros [= <- <- <-]. exists []. rewrite app_nil_r. auto.
  - rewrite range_cons.
    destruct (iteration c appConfig now policyID (w, tr)) as [f [w1 tr1]] eqn:Hturn.
    apply iteration_no_loss in Hturn as (evs & -> & Hkeep).
    assert (Hleft : forall evs' h,
              reported evs h -> reported (evs ++ evs')%list h).
    { intros evs' h (url & payload & Hin & Hid).
      exists url, payload. split; [apply elem_of_app; left; exact Hin|exact Hid]. }
    destruct f as [|err].
    + intros Hrest. apply IH in Hrest as (evs' & -> & Hkeep').
      exists (evs ++ evs')%list. split; [symmetry; apply app_assoc|].
      intros p h Hh. destruct (Hkeep p h Hh) as [H1|Hrep]; [|right; eauto].
      destruct (Hkeep' p h H1) as [H2|(url & payload & Hin & Hid)]; [left; exact H2|].
      right. exists url, payload. split; [apply elem_of_app; right; exact Hin|exact Hid].
    + intros [= <- <- <-]. exists evs. split; [reflexivity|exact Hkeep].
Qed.

(** With a failing set that keeps to its contract, every host that is
    in the set of a policy before a run is still there after it, or was
    in a payload that the destination accepted during the run: the
    cycle drops no host unreported, whatever errors it meets. *)
Theorem no_host_is_dropped_unreported w r w' tr p h :
  TriggerFailingPoliciesWebhook c appConfig now (w, []) = (r, (w', tr)) ->
  h ∈ members w p ->
  h ∈ members w' p
  \/ exists url (payload : FailingPoliciesPayload PolicyT TimeT),
       EvPost url payload None ∈ tr
       /\ service.ID h ∈ map ID (FailingHosts payload).
Proof.
  unfold TriggerFailingPoliciesWebhook.
  destruct (Enable (FailingPoliciesWebhook (WebhookSettings appConfig))); cbn.
  - intros Hrun Hh. apply range_no_loss in Hrun as (evs & -> & Hkeep).
    apply Hkeep. exact Hh.
  - unfold ret. intros [= <- <- <-] Hh. left. exact Hh.
Qed.

End NoLoss.

(** ** The in-memory set keeps to the contract *)
Section StoreContract.

Import webhooks memstore.

Implicit Types s : gmap Z (list service.PolicySetHost).

Lemma has_host_ids hostID hosts :
  has_host hostID hosts = false -> hostID ∉ map service.ID hosts.
Proof.
  induction hosts as [|h hosts IH]; [intros _; apply not_elem_of_nil|].
  rewrite has_host_cons. intros Hno.
  apply orb_false_iff in Hno as [Hh Hrest].
  apply Z.eqb_neq in Hh. cbn [map].
  intros [Heq|Hin]%elem_of_cons; [congruence|exact (IH Hrest Hin)].
Qed.

(** [removeHosts] takes from the set of its policy only hosts whose
    identifiers it was given, and nothing from another set. *)
Lemma removeHosts_removes_only policyID hosts s p h :
  h ∈ listHosts p s ->
  h ∈ listHosts p (removeHosts policyID hosts s)
  \/ (p = policyID /\ service.ID h ∈ map service.ID hosts).
Proof.
  intros Hh. unfold removeHosts.
  destruct (s !! policyID) as [members|] eqn:Hm; [|left; exact Hh].
  destruct (decide (policyID = p)) as [->|Hne].
  - unfold listHosts in *. rewrite lookup_insert_eq. rewrite Hm in Hh. cbn in *.
    destruct (has_host (service.ID h) hosts) eqn:Hgiven.
    + right. split; [reflexivity|].
      destruct (decide (service.ID h ∈ map service.ID hosts)) as [Hin|Hout];
        [exact Hin|].
      exfalso. unfold has_host in Hgiven.
      apply existsb_exists in Hgiven as (h' & Hin' & Heq).
      apply Z.eqb_eq in Heq. apply Hout. rewrite <- Heq.
      apply list_elem_of_In, in_map. exact Hin'.
    + left. apply list_elem_of_In, filter_In.
      split; [apply list_elem_of_In; exact Hh|].
      rewrite Hgiven. reflexivity.
  - left. unfold listHosts in *. rewrite lookup_insert_ne by exact Hne. exact Hh.
Qed.

End StoreContract.

(** ** A run over the in-memory set *)
Section StoreRuns.

Import fleet webhooks memstore scenario.

Lemma no_host_is_dropped_unreported_witness :
  (forall policyID hosts w r w',
     set_RemoveHosts steady policyID hosts w = (r, w') ->
     forall p h, h ∈ listHosts p w ->
       h ∈ listHosts p w'
       \/ (p = policyID /\ service.ID h ∈ map service.ID hosts))
  /\ TriggerFailingPoliciesWebhook steady (config [7] true) now (failing7, [])
     = (None, (drained7, turn7 [alice; bob]))
  /\ alice ∈ listHosts 7 failing7
  /\ (alice ∈ listHosts 7 drained7
      \/ exists url (payload : FailingPoliciesPayload string Z),
           EvPost url payload None ∈ turn7 [alice; bob]
           /\ service.ID alice ∈ map ID (FailingHosts payload)).
Proof.
  assert (Hpolicy : forall policyID w r w',
            ds_Policy steady policyID w = (r, w') ->
            forall p h, h ∈ listHosts p w -> h ∈ listHosts p w').
  { intros policyID w r w' [= _ <-] p h Hh. exact Hh. }
  assert (Hlist : forall policyID w r w',
            set_ListHosts steady policyID w = (r, w') ->
            forall p h, h ∈ listHosts p w -> h ∈ listHosts p w').
  { intros policyID w r w' [= _ <-] p h Hh. exact Hh. }
  assert (Hpost : forall url (payload : FailingPoliciesPayload string Z) w r w',
            PostJSONWithTimeout steady url payload w = (r, w') ->
            forall p h, h ∈ listHosts p w -> h ∈ listHosts p w').
  { intros url payload w r w' [= _ <-] p h Hh. exact Hh. }
  assert (Hremove : forall policyID hosts w r w',
            set_RemoveHosts steady policyID hosts w = (r, w') ->
            forall p h, h ∈ listHosts p w ->
              h ∈ listHosts p w'
              \/ (p = policyID /\ service.ID h ∈ map service.ID hosts)).
  { intros policyID hosts w r w' [= _ <-] p h Hh.
    apply removeHosts_removes_only. exact Hh. }
  assert (Hrun : TriggerFailingPoliciesWebhook steady (config [7] true) now
                   (failing7, [])
                 = (None, (drained7, turn7 [alice; bob])))
    by (vm_compute; reflexivity).
  assert (Hin : alice ∈ listHosts 7 failing7)
    by (vm_compute; apply list_elem_of_here).
  exact (conj Hremove (conj Hrun (conj Hin
    (no_host_is_dropped_unreported steady (config [7] true) now
       (fun w p => listHosts p w) Hpolicy Hlist Hpost Hremove
       failing7 None drained7 (turn7 [alice; bob]) 7 alice Hrun Hin)))).
Defined.

End StoreRuns.
